(** * GST invoice billing backend: [backend/server.py]

    A shallow embedding of the two computations of the backend, the
    invoice totals ([calculate_invoice_totals]) and the amount in words
    ([number_to_words]), and of the invoice numbering of [create_invoice],
    followed by the properties of the specification that concern them.

    Python values are modelled as the interpreter has them: [int] is [Z],
    [float] is IEEE 754 binary64 (the [spec_float] of the standard library
    at precision 53 and exponent bound 1024, with its correctly rounded
    operations), [str] is [string], and an exception is the [Raise] branch
    of a small error monad. *)

From Stdlib Require Import ZArith Lia List String Ascii Bool.
From Stdlib Require Import Floats.SpecFloat.
Import ListNotations.

Local Open Scope Z_scope.

(** ** The error monad of the embedding *)

Module Py.

Inductive exn : Type :=
  | OverflowError
  | ValueError
  | TypeError
  | IndexError.

Inductive result (A : Type) : Type :=
  | Ok (a : A)
  | Raise (e : exn).

Arguments Ok {A} a.
Arguments Raise {A} e.

Definition bind {A B : Type} (c : result A) (k : A -> result B) : result B :=
  match c with
  | Ok a => k a
  | Raise e => Raise e
  end.

Definition returns {A : Type} (c : result A) : bool :=
  match c with
  | Ok _ => true
  | Raise _ => false
  end.

End Py.

Export Py.

Declare Scope py_scope.
Delimit Scope py_scope with py.
Notation "x <- c ;; k" := (bind c (fun x => k))
  (at level 61, c at next level, right associativity) : py_scope.
Notation "' pat <- c ;; k" := (bind c (fun x => match x with pat => k end))
  (at level 61, pat pattern, c at next level, right associativity) : py_scope.

(** ** Python floats: IEEE 754 binary64 *)

Module Float.

Definition prec : Z := 53.
Definition emax : Z := 1024.

Definition float : Type := spec_float.

Definition add : float -> float -> float := SFadd prec emax.
Definition sub : float -> float -> float := SFsub prec emax.
Definition mul : float -> float -> float := SFmul prec emax.
Definition div : float -> float -> float := SFdiv prec emax.

(** [x == y] on floats: false as soon as one side is NaN. *)
Definition eqb : float -> float -> bool := SFeqb.
Definition ltb : float -> float -> bool := SFltb.

Definition zero : float := S754_zero false.

Definition is_finite (x : float) : bool :=
  match x with
  | S754_zero _ | S754_finite _ _ _ => true
  | S754_infinity _ | S754_nan => false
  end.

Definition is_nan (x : float) : bool :=
  match x with
  | S754_nan => true
  | _ => false
  end.

(** The double nearest to the integer [n], ties to even; an infinity when
    [n] is beyond the range. *)
Definition of_Z (n : Z) : float := binary_normalize prec emax n 0 false.

(** [float(n)] for a Python [int], as in [n * x] or [n - x] with [x] a
    float: [OverflowError] when [n] is too large for a double. *)
Definition of_int (n : Z) : result float :=
  match of_Z n with
  | S754_infinity _ => Raise OverflowError
  | f => Ok f
  end.

(** The integer nearest to [num / den], ties to the even one
    ([0 <= num], [0 < den]). *)
Definition div_half_even (num den : Z) : Z :=
  let q := num / den in
  let r := num mod den in
  match 2 * r ?= den with
  | Lt => q
  | Gt => q + 1
  | Eq => if Z.even q then q else q + 1
  end.

(** [round(x)], one argument: the nearest integer as a Python [int], ties
    to even; [OverflowError] on an infinity and [ValueError] on NaN. *)
Definition round (x : float) : result Z :=
  match x with
  | S754_zero _ => Ok 0
  | S754_infinity _ => Raise OverflowError
  | S754_nan => Raise ValueError
  | S754_finite s m e =>
      Ok (cond_Zopp s
            (match e with
             | Zneg p => div_half_even (Zpos m) (2 ^ Zpos p)
             | _ => Zpos m * 2 ^ e
             end))
  end.

(** The largest [ndigits] for which rounding can change a double. *)
Definition NDIGITS_MAX : Z := 323.

(** [round(x, ndigits)] for [0 <= ndigits]: the exact value of [x] is
    rounded to [ndigits] decimal places, ties to even, and the decimal
    obtained is read back as the nearest double.  Zeros, infinities and
    NaN round to themselves. *)
Definition round_ndigits (x : float) (ndigits : Z) : float :=
  match x with
  | S754_finite s m e =>
      if NDIGITS_MAX <? ndigits then x
      else
        let scale := 10 ^ ndigits in
        let n :=
          match e with
          | Zneg p => div_half_even (Zpos m * scale) (2 ^ Zpos p)
          | _ => Zpos m * 2 ^ e * scale
          end in
        match n, scale with
        | Zpos pn, Zpos ps => div (S754_finite s pn 0) (S754_finite false ps 0)
        | _, _ => S754_zero s
        end
  | _ => x
  end.

(** The double a decimal literal [n * 10^-k] reads as ([0 <= k]). *)
Definition decimal (n : Z) (k : Z) : float :=
  match n, 10 ^ k with
  | Zpos pn, Zpos ps => div (S754_finite false pn 0) (S754_finite false ps 0)
  | Zneg pn, Zpos ps => div (S754_finite true pn 0) (S754_finite false ps 0)
  | _, _ => zero
  end.

End Float.

Local Open Scope py_scope.

(** ** Python strings and the [int] coercion *)

Module Str.

Local Open Scope string_scope.
Local Open Scope Z_scope.

(** A character of a [string] stands for the code point of the same
    number; the whitespace of [str.strip] and of [int] among them. *)
Definition is_space (c : ascii) : bool :=
  let n := Z.of_nat (nat_of_ascii c) in
  ((9 <=? n) && (n <=? 13)) || ((28 <=? n) && (n <=? 32))
  || (n =? 133) || (n =? 160).

Fixpoint lstrip (s : string) : string :=
  match s with
  | String c rest => if is_space c then lstrip rest else s
  | EmptyString => EmptyString
  end.

(** [rstrip]: a character is kept when it is no whitespace or when
    something is kept after it. *)
Fixpoint rstrip (s : string) : string :=
  match s with
  | String c rest =>
      match rstrip rest with
      | EmptyString => if is_space c then EmptyString else String c EmptyString
      | kept => String c kept
      end
  | EmptyString => EmptyString
  end.

(** [s.strip()] *)
Definition strip (s : string) : string := rstrip (lstrip s).

(** [s.replace(old, new)] for a non-empty [old]: every occurrence, left to
    right, without overlap.  [skip] counts the characters of an occurrence
    still to be dropped. *)
Fixpoint replace_from (old new s : string) (skip : nat) : string :=
  match s with
  | EmptyString => EmptyString
  | String c rest =>
      match skip with
      | S k => replace_from old new rest k
      | O =>
          if String.prefix old s
          then new ++ replace_from old new rest (Nat.pred (String.length old))
          else String c (replace_from old new rest 0)
      end
  end.

Definition replace (s old new : string) : string := replace_from old new s 0.

Definition digit_of (c : ascii) : option Z :=
  let n := Z.of_nat (nat_of_ascii c) in
  if (48 <=? n) && (n <=? 57) then Some (n - 48) else None.

(** The default of [sys.int_max_str_digits]: a decimal text of more digits
    is refused by [int], and an [int] of more digits by [str]. *)
Definition int_max_str_digits : Z := 4300.

(** The digits of a decimal text after its sign: [acc] is the value read
    so far, [count] the number of digits read, [after_digit] tells whether
    the previous character was a digit (an underscore is allowed only
    between two digits). *)
Fixpoint digits (s : string) (acc count : Z) (after_digit : bool) : result Z :=
  match s with
  | EmptyString =>
      if after_digit && (count <=? int_max_str_digits) then Ok acc
      else Raise ValueError
  | String c rest =>
      match digit_of c with
      | Some d => digits rest (10 * acc + d) (count + 1) true
      | None =>
          if Ascii.eqb c "_" && after_digit then digits rest acc count false
          else Raise ValueError
      end
  end.

(** The whitespace [int] skips around a number: tab to carriage return,
    and the space.  The separators U+001C to U+001F, which [str.strip]
    removes, are no whitespace here. *)
Definition is_int_space (c : ascii) : bool :=
  let n := Z.of_nat (nat_of_ascii c) in
  ((9 <=? n) && (n <=? 13)) || (n =? 32).

(** What [int] reads in place of a character: a character below U+007F is
    read as it is, a whitespace character from there on as a space, and any
    other character as ["?"], on which the reading fails. *)
Definition int_char (c : ascii) : ascii :=
  if Z.of_nat (nat_of_ascii c) <? 127 then c
  else if is_space c then " "%char
  else "?"%char.

Fixpoint int_chars (s : string) : string :=
  match s with
  | String c rest => String (int_char c) (int_chars rest)
  | EmptyString => EmptyString
  end.

Fixpoint int_lstrip (s : string) : string :=
  match s with
  | String c rest => if is_int_space c then int_lstrip rest else s
  | EmptyString => EmptyString
  end.

Fixpoint int_rstrip (s : string) : string :=
  match s with
  | String c rest =>
      match int_rstrip rest with
      | EmptyString => if is_int_space c then EmptyString else String c EmptyString
      | kept => String c kept
      end
  | EmptyString => EmptyString
  end.

(** [int(s)] for a [str]: surrounding whitespace, a sign, decimal digits. *)
Definition to_int (s : string) : result Z :=
  match int_rstrip (int_lstrip (int_chars s)) with
  | String "-" rest => n <- digits rest 0 0 false ;; Ok (- n)
  | String "+" rest => digits rest 0 0 false
  | rest => digits rest 0 0 false
  end.

Fixpoint of_pos_digits (fuel : nat) (n : Z) (acc : string) : string :=
  match fuel with
  | O => acc
  | S fuel' =>
      let acc' := String (ascii_of_nat (Z.to_nat (48 + n mod 10))) acc in
      if n <? 10 then acc' else of_pos_digits fuel' (n / 10) acc'
  end.

(** [str(n)], as in the f-string [f"{n}"]. *)
Definition of_int (n : Z) : result string :=
  let body := of_pos_digits (S (Z.to_nat (Z.log2 (Z.abs n)))) (Z.abs n) "" in
  if int_max_str_digits <? Z.of_nat (String.length body) then Raise ValueError
  else Ok (if n <? 0 then String "-" body else body).

End Str.

(** ** Python values passed where the code takes any object *)

(** An object of any other type is known by what [int] does with it: the
    integer it converts to, or the exception the conversion raises. *)
Inductive pyval : Type :=
  | PyInt (n : Z)
  | PyFloat (x : Float.float)
  | PyStr (s : string)
  | PyNone
  | PyObject (as_int : result Z).

(** [int(v)]: an [int] is itself, a float is truncated towards zero
    ([OverflowError] on an infinity, [ValueError] on NaN), a [str] is
    parsed, [None] is a [TypeError]. *)
Definition py_int (v : pyval) : result Z :=
  match v with
  | PyInt n => Ok n
  | PyFloat (S754_zero _) => Ok 0
  | PyFloat (S754_infinity _) => Raise OverflowError
  | PyFloat S754_nan => Raise ValueError
  | PyFloat (S754_finite s m e) =>
      Ok (cond_Zopp s
            (match e with
             | Zneg p => Zpos m / 2 ^ Zpos p
             | _ => Zpos m * 2 ^ e
             end))
  | PyStr s => Str.to_int s
  | PyNone => Raise TypeError
  | PyObject as_int => as_int
  end.

(** [l[i]] on a list: a negative index counts from the end, an index out
    of range is an [IndexError]. *)
Definition list_index {A : Type} (l : list A) (i : Z) : result A :=
  let len := Z.of_nat (List.length l) in
  let j := if i <? 0 then i + len else i in
  if (j <? 0) || (len <=? j) then Raise IndexError
  else
    match nth_error l (Z.to_nat j) with
    | Some a => Ok a
    | None => Raise IndexError
    end.

(** ** [backend/server.py] *)

Module Server.

Import Float.

Local Open Scope string_scope.
Local Open Scope Z_scope.

(** *** Models *)

Record ProductItem : Type := {
  name : string;
  quantity : Z;
  unit_rate : float;
  discount_percentage : float;
  gst_rate : float
}.

(** The dictionary [calculate_invoice_totals] returns. *)
Record InvoiceTotals : Type := {
  total_taxable_value : float;
  total_cgst : float;
  total_sgst : float;
  total_tax : float;
  round_off : float;
  final_amount : Z
}.

(** The literals [100] and [2] where the code divides a float by them. *)
Definition float_100 : float := Eval vm_compute in of_Z 100.
Definition float_2 : float := Eval vm_compute in of_Z 2.

(** *** [calculate_invoice_totals] *)

(** The running totals of the loop:
    [(total_taxable_value, total_cgst, total_sgst)]. *)
Definition running : Type := (float * float * float)%type.

(** One turn of the loop.  [quantity * unit_rate] converts the [int]
    quantity to a float first. *)
Definition loop_body (acc : running) (product : ProductItem) : result running :=
  let '(total_taxable_value, total_cgst, total_sgst) := acc in
  q <- of_int (quantity product) ;;
  let discount_amount :=
    div (mul (mul q (unit_rate product)) (discount_percentage product)) float_100 in
  let taxable_value := sub (mul q (unit_rate product)) discount_amount in
  let cgst_rate := div (gst_rate product) float_2 in
  let sgst_rate := div (gst_rate product) float_2 in
  let cgst_amount := div (mul taxable_value cgst_rate) float_100 in
  let sgst_amount := div (mul taxable_value sgst_rate) float_100 in
  Ok (add total_taxable_value taxable_value,
      add total_cgst cgst_amount,
      add total_sgst sgst_amount).

Fixpoint loop (products : list ProductItem) (acc : running) : result running :=
  match products with
  | [] => Ok acc
  | product :: rest => acc' <- loop_body acc product ;; loop rest acc'
  end.

(** The totals before the final rounding to two decimals. *)
Definition unrounded_totals (products : list ProductItem) : result running :=
  loop products (zero, zero, zero).

Definition calculate_invoice_totals (products : list ProductItem)
  : result InvoiceTotals :=
  '(total_taxable_value, total_cgst, total_sgst) <- unrounded_totals products ;;
  let total_tax := add total_cgst total_sgst in
  let gross_total := add total_taxable_value total_tax in
  final_amount <- round gross_total ;;
  final_amount_float <- of_int final_amount ;;
  let round_off := sub final_amount_float gross_total in
  Ok {| total_taxable_value := round_ndigits total_taxable_value 2;
        total_cgst := round_ndigits total_cgst 2;
        total_sgst := round_ndigits total_sgst 2;
        total_tax := round_ndigits total_tax 2;
        round_off := round_ndigits round_off 2;
        final_amount := final_amount |}.

(** *** [number_to_words] *)

Definition ones : list string :=
  [""; "One"; "Two"; "Three"; "Four"; "Five"; "Six"; "Seven"; "Eight"; "Nine"].
Definition teens : list string :=
  ["Ten"; "Eleven"; "Twelve"; "Thirteen"; "Fourteen"; "Fifteen";
   "Sixteen"; "Seventeen"; "Eighteen"; "Nineteen"].
Definition tens : list string :=
  [""; ""; "Twenty"; "Thirty"; "Forty"; "Fifty"; "Sixty"; "Seventy"; "Eighty";
   "Ninety"].

(** The nested [convert_hundreds]; the pairs thread the two variables
    [result] and [n] that the body updates. *)
Definition convert_hundreds (n : Z) : result string :=
  let result := "" in
  '(result, n) <-
    (if 100 <=? n
     then w <- list_index ones (n / 100) ;;
          Ok (result ++ w ++ " Hundred ", n mod 100)
     else Ok (result, n)) ;;
  '(result, n) <-
    (if 20 <=? n
     then w <- list_index tens (n / 10) ;;
          Ok (result ++ w ++ " ", n mod 10)
     else if 10 <=? n
     then w <- list_index teens (n - 10) ;;
          Ok (result ++ w ++ " ", 0)
     else Ok (result, n)) ;;
  result <-
    (if 0 <? n
     then w <- list_index ones n ;; Ok (result ++ w ++ " ")
     else Ok result) ;;
  Ok (Str.strip result).

(** The body of the [try]. *)
Definition number_to_words_try (num : pyval) : result string :=
  num <- py_int num ;;
  if num =? 0 then Ok "Zero Rupees Only"
  else if num <? 1000 then
    h <- convert_hundreds num ;;
    Ok (h ++ " Rupees Only")
  else if num <? 100000 then
    let thousands := num / 1000 in
    let remainder := num mod 1000 in
    h <- convert_hundreds thousands ;;
    let result := h ++ " Thousand " in
    result <-
      (if 0 <? remainder
       then h <- convert_hundreds remainder ;; Ok (result ++ h ++ " ")
       else Ok result) ;;
    Ok (Str.strip result ++ " Rupees Only")
  else
    let lakhs := num / 100000 in
    let remainder := num mod 100000 in
    h <- convert_hundreds lakhs ;;
    let result := h ++ " Lakh " in
    '(result, remainder) <-
      (if 1000 <=? remainder
       then let thousands := remainder / 1000 in
            h <- convert_hundreds thousands ;;
            Ok (result ++ h ++ " Thousand ", remainder mod 1000)
       else Ok (result, remainder)) ;;
    result <-
      (if 0 <? remainder
       then h <- convert_hundreds remainder ;; Ok (result ++ h ++ " ")
       else Ok result) ;;
    Ok (Str.strip result ++ " Rupees Only").

Definition fallback : string := "Amount calculation error".

(** [number_to_words]: the bare [except:] turns every exception of the
    body into the fallback text. *)
Definition number_to_words (num : pyval) : result string :=
  match number_to_words_try num with
  | Ok words => Ok words
  | Raise _ => Ok fallback
  end.

(** *** [create_invoice]: the invoice number *)

(** The request body; the shop and customer snapshots, the reverse-charge
    flag and the QR code play no part in the number or the totals. *)
Record InvoiceCreate : Type := {
  products : list ProductItem
}.

(** A stored invoice document. *)
Record Invoice : Type := {
  invoice_number : string;
  invoice_products : list ProductItem;
  totals : InvoiceTotals;
  amount_in_words : string
}.

(** The collection [db.invoices], oldest document first. *)
Definition collection : Type := list Invoice.

(** The store orders strings by their bytes. *)
Definition string_ltb (a b : string) : bool :=
  match String.compare a b with
  | Lt => true
  | _ => false
  end.

(** [db.invoices.find_one(sort=[("invoice_number", -1)])]: the document
    whose [invoice_number] is greatest as a string, [None] on an empty
    collection. *)
Fixpoint find_one_sorted_desc (db : collection) : option Invoice :=
  match db with
  | [] => None
  | doc :: rest =>
      match find_one_sorted_desc rest with
      | Some best =>
          if string_ltb (invoice_number doc) (invoice_number best)
          then Some best else Some doc
      | None => Some doc
      end
  end.

(** The integers of a stored document are at most 64 bits wide. *)
Definition fits_int64 (n : Z) : bool := (- 2 ^ 63 <=? n) && (n <? 2 ^ 63).

(** [db.invoices.insert_one(invoice_obj.dict())]: the document is appended,
    unless one of its integers is beyond 64 bits, which the encoding of the
    document refuses with [OverflowError].  The quantities are the integers
    of the document: [final_amount] is a float field of [Invoice], and the
    other fields are texts, flags and dates.  What else the store may
    refuse (a document beyond its size limit, a lost connection) is not
    decided here: the properties of [create_invoice] below are about the
    requests that are accepted. *)
Definition insert_one (db : collection) (document : Invoice) : result collection :=
  if forallb (fun product => fits_int64 (quantity product))
             (invoice_products document)
  then Ok (db ++ [document])%list
  else Raise OverflowError.

(** [create_invoice]: the new document and the collection after the
    insert. *)
Definition create_invoice (db : collection) (invoice_data : InvoiceCreate)
  : result (Invoice * collection) :=
  next_num <-
    match find_one_sorted_desc db with
    | Some last_invoice =>
        last_num <- Str.to_int (Str.replace (invoice_number last_invoice) "INV" "") ;;
        Ok (last_num + 1)
    | None => Ok 1
    end ;;
  digits <- Str.of_int next_num ;;
  let invoice_number := "INV" ++ digits in
  totals <- calculate_invoice_totals (products invoice_data) ;;
  amount_in_words <- number_to_words (PyInt (final_amount totals)) ;;
  let invoice_obj :=
    {| invoice_number := invoice_number;
       invoice_products := products invoice_data;
       totals := totals;
       amount_in_words := amount_in_words |} in
  db' <- insert_one db invoice_obj ;;
  Ok (invoice_obj, db').

(** [count] submissions of the same request in a row: the numbers handed
    out, in order, and the collection at the end. *)
Fixpoint submit (count : nat) (db : collection) (invoice_data : InvoiceCreate)
  : result (list string * collection) :=
  match count with
  | O => Ok ([], db)
  | S count' =>
      '(invoice_obj, db') <- create_invoice db invoice_data ;;
      '(numbers, db'') <- submit count' db' invoice_data ;;
      Ok (invoice_number invoice_obj :: numbers, db'')
  end.

End Server.

Import Server.

Local Open Scope string_scope.
Local Open Scope Z_scope.

(** ** Sample requests and the notions the properties are stated with *)

Definition line (q : Z) (rate discount gst : Float.float) : ProductItem :=
  {| name := "Item"; quantity := q; unit_rate := rate;
     discount_percentage := discount; gst_rate := gst |}.

(** The scenario of the specification:
    [quantity=2, unit_rate=1000.0, discount_percentage=5.0, gst_rate=18.0]. *)
Definition scenario_line : ProductItem :=
  line 2 (Float.decimal 1000 0) (Float.decimal 5 0) (Float.decimal 18 0).

Definition scenario_request : InvoiceCreate :=
  {| products := [scenario_line] |}.

(** The totals the specification gives for the scenario: taxable value
    1900.0, CGST and SGST 171.0 each, tax 342.0, no round-off, 2242. *)
Definition scenario_totals : InvoiceTotals :=
  {| total_taxable_value := Float.decimal 1900 0;
     total_cgst := Float.decimal 171 0;
     total_sgst := Float.decimal 171 0;
     total_tax := Float.decimal 342 0;
     round_off := Float.zero;
     final_amount := 2242 |}.

(** One item at 1.75 with 18% GST: the gross total is 2.065. *)
Definition small_line : ProductItem :=
  line 1 (Float.decimal 175 2) Float.zero (Float.decimal 18 0).

(** One item at 1.0 with 5% GST: CGST and SGST are 0.025 each. *)
Definition five_percent_line : ProductItem :=
  line 1 (Float.decimal 1 0) Float.zero (Float.decimal 5 0).

(** One item at 2242.5 without tax: the gross total is 2242.5. *)
Definition half_rupee_line : ProductItem :=
  line 1 (Float.decimal 22425 1) Float.zero Float.zero.


(** [gross_total] as the function computes it, before [round]. *)
Definition gross_total (products : list ProductItem) : result Float.float :=
  '(total_taxable_value, total_cgst, total_sgst) <- unrounded_totals products ;;
  Ok (Float.add total_taxable_value (Float.add total_cgst total_sgst)).

(** The exact value of a finite double is [signed_mantissa * 2^e]. *)
Definition signed_mantissa (s : bool) (m : positive) : Z :=
  cond_Zopp s (Zpos m).

(** [n] is an integer nearest to the exact value of [x], and the even one
    of the two when [x] lies half-way between them. *)
Definition nearest_integer (x : Float.float) (n : Z) : Prop :=
  match x with
  | S754_zero _ => n = 0
  | S754_finite s m (Zneg p) =>
      let v := signed_mantissa s m in
      let d := 2 ^ Zpos p in
      Z.abs (2 * (n * d - v)) <= d
      /\ (Z.abs (2 * (n * d - v)) = d -> Z.even n = true)
  | S754_finite s m e => n = signed_mantissa s m * 2 ^ e
  | _ => False
  end.

(** The exact value of [x] is [k + 1/2]. *)
Definition half_way (x : Float.float) (k : Z) : Prop :=
  match x with
  | S754_finite s m (Zneg p) =>
      2 * signed_mantissa s m = (2 * k + 1) * 2 ^ Zpos p
  | _ => False
  end.

(** What every result of a rounded operation satisfies: a finite one has a
    mantissa of at most 53 bits and an exponent of at most 971. *)
Definition in_range (x : Float.float) : Prop :=
  match x with
  | S754_finite _ m e => Zpos (digits2_pos m) <= Float.prec /\ e <= Float.emax - Float.prec
  | _ => True
  end.


(** ** The amount in words, word by word

    A second rendering of an amount, as a list of words, and a reader of
    such texts; [number_to_words] is compared with them below. *)

Definition join_words (ws : list string) : string := String.concat " " ws.

Definition word (table : list string) (i : Z) : string :=
  nth (Z.to_nat i) table "".

(** The words of a number from 0 to 999: the hundreds digit and
    ["Hundred"], then the tens word and the units word, or the one word of
    10 to 19. *)
Definition hundreds_words (n : Z) : list string :=
  ((if 100 <=? n then [word ones (n / 100); "Hundred"] else [])
   ++ (let r := n mod 100 in
       if 20 <=? r then
         word tens (r / 10)
         :: (if 0 <? r mod 10 then [word ones (r mod 10)] else [])
       else if 10 <=? r then [word teens (r - 10)]
       else if 0 <? r then [word ones r]
       else []))%list.

(** The words of an amount: the lakhs, the thousands and the rest, each
    left out when it is zero. *)
Definition amount_words (n : Z) : list string :=
  let lakhs := n / 100000 in
  let thousands := (n mod 100000) / 1000 in
  let rest := n mod 1000 in
  ((if 0 <? lakhs then hundreds_words lakhs ++ ["Lakh"] else [])
   ++ (if 0 <? thousands then hundreds_words thousands ++ ["Thousand"] else [])
   ++ (if 0 <? rest then hundreds_words rest else []))%list.

(** A word of the output: not empty, no whitespace in it. *)
Definition word_ok (w : string) : bool :=
  negb (String.eqb w "")
  && forallb (fun c => negb (Str.is_space c)) (list_ascii_of_string w).

(** The words of a text, split at the spaces; [cur] is the word being
    read. *)
Fixpoint split_words_from (s cur : string) : list string :=
  match s with
  | EmptyString => if String.eqb cur "" then [] else [cur]
  | String c rest =>
      if Ascii.eqb c " " then
        if String.eqb cur "" then split_words_from rest ""
        else cur :: split_words_from rest ""
      else split_words_from rest (cur ++ String c "")
  end.

Definition split_words (s : string) : list string := split_words_from s "".

Fixpoint index_of (w : string) (table : list string) (i : Z) : option Z :=
  match table with
  | [] => None
  | x :: rest => if String.eqb x w then Some i else index_of w rest (i + 1)
  end.

(** The number a number word stands for; 0 for any other word. *)
Definition word_value (w : string) : Z :=
  match index_of w ones 0, index_of w teens 10, index_of w tens 0 with
  | Some i, _, _ => i
  | None, Some i, _ => i
  | None, None, Some i => 10 * i
  | None, None, None => 0
  end.

(** Reading one word: [(total, current)] are the value of the closed
    scale segments and of the segment being read. *)
Definition word_step (st : Z * Z) (w : string) : Z * Z :=
  let '(total, current) := st in
  if String.eqb w "Hundred" then (total, current * 100)
  else if String.eqb w "Thousand" then (total + current * 1000, 0)
  else if String.eqb w "Lakh" then (total + current * 100000, 0)
  else (total, current + word_value w).

Definition words_value (ws : list string) : Z :=
  let '(total, current) := fold_left word_step ws (0, 0) in total + current.

(** The amount a text in words stands for. *)
Definition parse_amount (s : string) : Z := words_value (split_words s).

Definition below_thousand : list Z := map Z.of_nat (seq 0 1000).

(** What is checked of [convert_hundreds] on each number from 0 to 999. *)
Definition hundreds_check (n : Z) : bool :=
  match convert_hundreds n with
  | Ok s =>
      String.eqb s (join_words (hundreds_words n))
      && forallb word_ok (hundreds_words n)
      && (if 0 <? n then negb (Nat.eqb (List.length (hundreds_words n)) 0) else true)
      && (let '(total, current) := fold_left word_step (hundreds_words n) (0, 0) in
          (total =? 0) && (current =? n))
  | Raise _ => false
  end.

(** ** The numbers in the store *)



(** A text of decimal digits only. *)
Definition is_decimal (s : string) : bool :=
  forallb (fun c => match Str.digit_of c with Some _ => true | None => false end)
          (list_ascii_of_string s).


(** A finite double in its one valid representation. *)
Definition finite_double (x : Float.float) : Prop :=
  Float.is_finite x = true /\ valid_binary Float.prec Float.emax x = true.

(** No exponent below that of the smallest subnormal number. *)
Definition above_emin (x : Float.float) : Prop :=
  match x with
  | S754_finite _ _ e => -1074 <= e
  | _ => True
  end.

(** The running totals are never -0.0 and never below the smallest
    exponent. *)
Definition settled (acc : running) : Prop :=
  let '(t, c, s) := acc in
  (t <> S754_zero true /\ above_emin t)
  /\ (c <> S754_zero true /\ above_emin c)
  /\ (s <> S754_zero true /\ above_emin s).

(** A quantity of 1 at 1.0, then a quantity of [2^1024]. *)
Definition overflowing_lines : list ProductItem :=
  [five_percent_line; line (2 ^ 1024) (Float.decimal 1 0) Float.zero Float.zero].

(** * Properties *)

(** ** The invoice number *)

(** C8: eleven submissions in a row to an empty store.  The first ten get
    [INV1] to [INV10]; the store then holds [INV9] as its greatest number
    (strings are compared, not integers), and the eleventh invoice gets
    [INV10] a second time. *)
Theorem invoice_number_repeats_after_ten :
  match submit 11 [] scenario_request with
  | Ok (numbers, _) =>
      numbers = ["INV1"; "INV2"; "INV3"; "INV4"; "INV5"; "INV6"; "INV7";
                 "INV8"; "INV9"; "INV10"; "INV10"]
  | Raise _ => False
  end.
Proof. vm_compute. reflexivity. Qed.

(** ** The amount in words *)

Lemma list_index_ones_out_of_range (i : Z) :
  10 <= i -> list_index ones i = Raise IndexError.
Proof.
  intros Hi. unfold list_index.
  change (Z.of_nat (List.length ones)) with 10.
  destruct (Z.ltb_spec i 0) as [Hneg | _]; [lia |].
  destruct (Z.ltb_spec i 0) as [Hneg | _]; [lia |].
  destruct (Z.leb_spec 10 i) as [_ | Hlt]; [reflexivity | lia].
Qed.

Lemma convert_hundreds_negative (n : Z) :
  n < 0 -> convert_hundreds n = Ok "".
Proof.
  intros Hn. unfold convert_hundreds.
  destruct (Z.leb_spec 100 n) as [H100 | _]; [lia |]. cbn [bind].
  destruct (Z.leb_spec 20 n) as [H20 | _]; [lia |].
  destruct (Z.leb_spec 10 n) as [H10 | _]; [lia |]. cbn [bind].
  destruct (Z.ltb_spec 0 n) as [H0 | _]; [lia |]. reflexivity.
Qed.

Lemma convert_hundreds_out_of_range (n : Z) :
  1000 <= n -> convert_hundreds n = Raise IndexError.
Proof.
  intros Hn. unfold convert_hundreds.
  destruct (Z.leb_spec 100 n) as [_ | H100]; [| lia].
  rewrite list_index_ones_out_of_range; [reflexivity |].
  apply Z.div_le_lower_bound; lia.
Qed.

(** C6: the three renderings named by the specification. *)
Theorem number_to_words_examples :
  number_to_words (PyInt 0) = Ok "Zero Rupees Only"
  /\ number_to_words (PyInt 100000) = Ok "One Lakh Rupees Only"
  /\ number_to_words (PyInt 123456)
     = Ok "One Lakh Twenty Three Thousand Four Hundred Fifty Six Rupees Only".
Proof. repeat split; vm_compute; reflexivity. Qed.

(** C7: [number_to_words] returns a string on every input and never
    raises; when the coercion [int(num)] fails the string is the fallback
    text. *)
Theorem number_to_words_never_raises (num : pyval) :
  match py_int num with
  | Raise _ => number_to_words num = Ok fallback
  | Ok _ => exists words, number_to_words num = Ok words
  end.
Proof.
  unfold number_to_words, number_to_words_try.
  destruct (py_int num) as [n | e]; cbn [bind]; [| reflexivity].
  match goal with
  | |- exists w, match ?c with _ => _ end = _ => destruct c as [w | e]
  end; eauto.
Qed.

(** C9: from 100,000,000 on, the lakhs component is 1000 or more, the
    hundreds converter indexes [ones] out of range, and the handler
    returns the fallback text. *)
Theorem number_to_words_fallback_from_ten_crore (num : pyval) (n : Z) :
  py_int num = Ok n ->
  100000000 <= n ->
  number_to_words num = Ok fallback.
Proof.
  intros Hint Hn. unfold number_to_words, number_to_words_try.
  rewrite Hint. cbn [bind].
  destruct (Z.eqb_spec n 0) as [H0 | _]; [lia |].
  destruct (Z.ltb_spec n 1000) as [H1 | _]; [lia |].
  destruct (Z.ltb_spec n 100000) as [H2 | _]; [lia |].
  rewrite convert_hundreds_out_of_range; [reflexivity |].
  apply Z.div_le_lower_bound; lia.
Qed.

Lemma number_to_words_fallback_from_ten_crore_witness :
  number_to_words (PyInt 100000000) = Ok fallback.
Proof.
  apply (number_to_words_fallback_from_ten_crore (PyInt 100000000) 100000000).
  - reflexivity.
  - lia.
Defined.

(** C10: an input that coerces to a negative integer yields the text
    [" Rupees Only"], with no number words and no fallback. *)
Theorem number_to_words_negative (num : pyval) (n : Z) :
  py_int num = Ok n ->
  n < 0 ->
  number_to_words num = Ok " Rupees Only".
Proof.
  intros Hint Hn. unfold number_to_words, number_to_words_try.
  rewrite Hint. cbn [bind].
  destruct (Z.eqb_spec n 0) as [H0 | _]; [lia |].
  destruct (Z.ltb_spec n 1000) as [_ | H1]; [| lia].
  rewrite convert_hundreds_negative by assumption. reflexivity.
Qed.

Lemma number_to_words_negative_witness :
  number_to_words (PyInt (-42)) = Ok " Rupees Only".
Proof.
  apply (number_to_words_negative (PyInt (-42)) (-42)).
  - reflexivity.
  - lia.
Defined.

Lemma Ok_inj {A : Type} (a b : A) : Ok a = Ok b -> a = b.
Proof. intros H. congruence. Qed.

Lemma number_to_words_never_raises_int (n : Z) :
  exists words, number_to_words (PyInt n) = Ok words.
Proof.
  unfold number_to_words.
  destruct (number_to_words_try (PyInt n)) as [w | e]; eauto.
Qed.

(** ** Facts on binary64 arithmetic *)

Section FloatFacts.

Import Float.

Lemma add_finite_inv (x y : float) :
  is_finite (add x y) = true -> is_finite x = true /\ is_finite y = true.
Proof.
  destruct x as [sx | sx | | sx mx ex], y as [sy | sy | | sy my ey];
    try (intros _; split; reflexivity);
    try destruct sx; try destruct sy; cbn; intros H; discriminate H.
Qed.

Lemma finite_not_nan (x : float) : is_finite x = true -> is_nan x = false.
Proof. destruct x; cbn; congruence. Qed.

Lemma eqb_refl (x : float) : is_nan x = false -> eqb x x = true.
Proof.
  destruct x as [s | s | | s m e]; cbn; try discriminate;
    try (destruct s; reflexivity).
  intros _. unfold eqb, SFeqb, SFcompare.
  rewrite Z.compare_refl, Pos.compare_cont_refl. destruct s; reflexivity.
Qed.

Lemma round_returns (x : float) (n : Z) :
  round x = Ok n -> is_finite x = true.
Proof. destruct x; cbn; congruence. Qed.

(** The mantissa stays non-negative through the right shifts and the
    rounding of [binary_round_aux], so its last case, NaN, is not taken. *)
Lemma shr_1_nonneg (r : shr_record) : 0 <= shr_m r -> 0 <= shr_m (shr_1 r).
Proof.
  destruct r as [m r s]. destruct m as [| p | p]; cbn; intros H;
    [lia | destruct p; cbn; lia | lia].
Qed.

Lemma iter_shr_1_nonneg (p : positive) :
  forall r, 0 <= shr_m r -> 0 <= shr_m (iter_pos shr_1 p r).
Proof.
  induction p as [p IH | p IH |]; intros r H; cbn [iter_pos];
    auto using shr_1_nonneg.
Qed.

Lemma shr_record_of_loc_m (m : Z) (l : location) :
  shr_m (shr_record_of_loc m l) = m.
Proof. destruct l as [| []]; reflexivity. Qed.

Lemma shr_fexp_nonneg (m e : Z) (l : location) :
  0 <= m -> 0 <= shr_m (fst (shr_fexp prec emax m e l)).
Proof.
  intros H. unfold shr_fexp, shr.
  destruct (fexp prec emax (Zdigits2 m + e) - e) as [| p | p]; cbn [fst];
    try apply iter_shr_1_nonneg; rewrite shr_record_of_loc_m; exact H.
Qed.

Lemma round_nearest_even_nonneg (m : Z) (l : location) :
  0 <= m -> 0 <= round_nearest_even m l.
Proof.
  intros H. destruct l as [| []]; cbn; try destruct (Z.even m); lia.
Qed.

Lemma binary_round_aux_not_nan (s : bool) (m e : Z) (l : location) :
  0 <= m -> is_nan (binary_round_aux prec emax s m e l) = false.
Proof.
  intros H. unfold binary_round_aux.
  pose proof (shr_fexp_nonneg m e l H) as H1.
  destruct (shr_fexp prec emax m e l) as [mrs' e']. cbn [fst] in H1.
  pose proof (shr_fexp_nonneg _ e' loc_Exact
                (round_nearest_even_nonneg _ (loc_of_shr_record mrs') H1)) as H2.
  destruct (shr_fexp prec emax _ e' loc_Exact) as [mrs'' e'']. cbn [fst] in H2.
  destruct (shr_m mrs'') as [| q | q]; [reflexivity | | lia].
  destruct (e'' <=? emax - prec); reflexivity.
Qed.

Lemma div_core_nonneg (m1 m2 : positive) (e1 e2 : Z) :
  0 <= fst (fst (SFdiv_core_binary prec emax (Zpos m1) e1 (Zpos m2) e2)).
Proof.
  unfold SFdiv_core_binary.
  set (sh := _ - _ - Z.min _ _).
  set (m' := match sh with Z0 => Zpos m1 | Zpos _ => Z.shiftl (Zpos m1) sh
                         | Zneg _ => 0 end).
  assert (Hm' : 0 <= m').
  { subst m'. destruct sh; [lia | apply Z.shiftl_nonneg; lia | lia]. }
  pose proof (Z.div_pos m' (Zpos m2) Hm' ltac:(lia)) as Hq.
  unfold Z.div in Hq. destruct (Z.div_eucl m' (Zpos m2)) as [q r].
  exact Hq.
Qed.

Lemma div_finite_not_nan (sx sy : bool) (mx my : positive) (ex ey : Z) :
  is_nan (div (S754_finite sx mx ex) (S754_finite sy my ey)) = false.
Proof.
  unfold div, SFdiv.
  pose proof (div_core_nonneg mx my ex ey) as H.
  destruct (SFdiv_core_binary prec emax (Zpos mx) ex (Zpos my) ey) as [[mz ez] lz].
  apply binary_round_aux_not_nan. exact H.
Qed.

Lemma round_ndigits_not_nan (x : float) (ndigits : Z) :
  is_nan x = false -> is_nan (round_ndigits x ndigits) = false.
Proof.
  destruct x as [s | s | | s m e]; cbn [round_ndigits]; auto.
  intros _. destruct (NDIGITS_MAX <? ndigits); [reflexivity |].
  match goal with
  | |- is_nan (match ?n with _ => _ end) = false => destruct n
  end; try reflexivity;
    destruct (10 ^ ndigits); try reflexivity; apply div_finite_not_nan.
Qed.

(** *** Results of rounded operations stay in range

    [shr_fexp] leaves a mantissa of at most 53 bits, whatever it is given;
    hence every finite result of [binary_round_aux] is [in_range]. *)

Lemma digits2_pos_size (m : positive) : digits2_pos m = Pos.size m.
Proof. induction m as [m IH | m IH |]; cbn; congruence. Qed.

Lemma Zdigits2_log2 (z : Z) : 0 < z -> Zdigits2 z = Z.log2 z + 1.
Proof.
  destruct z as [| m | m]; try lia. intros _. cbn [Zdigits2].
  rewrite digits2_pos_size. destruct m; cbn [Pos.size Z.log2]; lia.
Qed.

Lemma Zdigits2_nonneg (z : Z) : 0 <= Zdigits2 z.
Proof. destruct z; cbn; lia. Qed.


Lemma Zdigits2_succ (a : Z) : 0 <= a -> Zdigits2 (a + 1) <= Zdigits2 a + 1.
Proof.
  intros Ha. destruct (Z.eq_dec a 0) as [-> | Hne]; [cbn; lia |].
  rewrite !Zdigits2_log2 by lia.
  pose proof (Z.log2_succ_le a). unfold Z.succ in *. lia.
Qed.

Lemma Zdigits2_mul_pow2 (a j : Z) :
  0 < a -> 0 <= j -> Zdigits2 (a * 2 ^ j) = Zdigits2 a + j.
Proof.
  intros Ha Hj.
  assert (0 < 2 ^ j) by (apply Z.pow_pos_nonneg; lia).
  rewrite !Zdigits2_log2 by nia.
  rewrite Z.log2_mul_pow2 by lia. lia.
Qed.

Lemma shr_1_digits (r : shr_record) :
  0 <= shr_m r ->
  Zdigits2 (shr_m (shr_1 r)) = Z.max 0 (Zdigits2 (shr_m r) - 1).
Proof.
  destruct r as [m r s]. destruct m as [| p | p]; cbn [shr_m]; intros H;
    [reflexivity | | lia].
  destruct p; cbn [shr_1 shr_m Zdigits2 digits2_pos]; lia.
Qed.

Lemma iter_shr_1_digits (p : positive) :
  forall r,
    0 <= shr_m r ->
    Zdigits2 (shr_m (iter_pos shr_1 p r))
    = Z.max 0 (Zdigits2 (shr_m r) - Zpos p).
Proof.
  induction p as [p IH | p IH |]; intros r H; cbn [iter_pos].
  - rewrite !IH, shr_1_digits
      by auto using shr_1_nonneg, iter_shr_1_nonneg. lia.
  - rewrite !IH by auto using iter_shr_1_nonneg. lia.
  - apply shr_1_digits, H.
Qed.

(** What [shr_fexp] returns: the new exponent, and bounds on the
    mantissa. *)
Lemma shr_fexp_spec (m e : Z) (l : location) :
  0 <= m ->
  let d := Zdigits2 m in
  let f := Z.max (d + e - 53) (-1074) in
  let r := shr_fexp prec emax m e l in
  0 <= shr_m (fst r)
  /\ Zdigits2 (shr_m (fst r)) <= 53
  /\ snd r = Z.max e f
  /\ Zdigits2 (shr_m (fst r)) + snd r <= Z.max (d + e) f.
Proof.
  intros Hm d f r.
  split; [apply shr_fexp_nonneg, Hm |].
  subst r. unfold shr_fexp, shr.
  change (fexp prec emax (Zdigits2 m + e)) with f.
  pose proof (Zdigits2_nonneg m) as Hd. fold d in Hd.
  destruct (f - e) as [| p | p] eqn:Hfe; cbn [fst snd].
  - rewrite shr_record_of_loc_m. fold d. lia.
  - rewrite iter_shr_1_digits by (rewrite shr_record_of_loc_m; exact Hm).
    rewrite shr_record_of_loc_m. fold d. lia.
  - rewrite shr_record_of_loc_m. fold d. lia.
Qed.

Lemma round_nearest_even_digits (m : Z) (l : location) :
  0 <= m -> Zdigits2 (round_nearest_even m l) <= Zdigits2 m + 1.
Proof.
  intros Hm. pose proof (Zdigits2_succ m Hm).
  destruct l as [| []]; cbn [round_nearest_even];
    try destruct (Z.even m); lia.
Qed.

(** A finite result of [binary_round_aux] is in range, NaN is never its
    result, and an infinity takes an operand beyond the range. *)
Lemma binary_round_aux_spec (s : bool) (m e : Z) (l : location) :
  0 <= m ->
  match binary_round_aux prec emax s m e l with
  | S754_finite _ m' e' => Zpos (digits2_pos m') <= 53 /\ e' <= 971
  | S754_infinity _ => ~ (e <= 971 /\ Zdigits2 m + e <= 1023)
  | S754_nan => False
  | S754_zero _ => True
  end.
Proof.
  intros Hm. unfold binary_round_aux.
  destruct (shr_fexp_spec m e l Hm) as (H1 & H2 & H3 & H4).
  destruct (shr_fexp prec emax m e l) as [mrs' e']. cbn [fst snd] in *.
  pose proof (round_nearest_even_nonneg _ (loc_of_shr_record mrs') H1) as Hr.
  pose proof (round_nearest_even_digits _ (loc_of_shr_record mrs') H1) as Hrd.
  set (m2 := round_nearest_even (shr_m mrs') (loc_of_shr_record mrs')) in *.
  destruct (shr_fexp_spec m2 e' loc_Exact Hr) as (K1 & K2 & K3 & K4).
  destruct (shr_fexp prec emax m2 e' loc_Exact) as [mrs'' e'']. cbn [fst snd] in *.
  destruct (shr_m mrs'') as [| q | q] eqn:Hq; [exact I | | lia].
  change (emax - prec) with 971.
  destruct (Z.leb_spec e'' 971) as [Hle | Hgt].
  - cbn [Zdigits2] in K2. split; assumption.
  - intros [He Hde]. pose proof (Zdigits2_nonneg m). lia.
Qed.







(** *** Rounding to an integer *)

Lemma div_half_even_spec (num den : Z) :
  0 <= num -> 0 < den ->
  Z.abs (2 * (div_half_even num den * den - num)) <= den
  /\ (Z.abs (2 * (div_half_even num den * den - num)) = den
      -> Z.even (div_half_even num den) = true).
Proof.
  intros Hnum Hden. unfold div_half_even.
  pose proof (Z.div_mod num den ltac:(lia)) as Hdm.
  pose proof (Z.mod_pos_bound num den Hden) as Hr.
  set (q := num / den) in *. set (r := num mod den) in *.
  destruct (Z.compare_spec (2 * r) den) as [Heq | Hlt | Hgt].
  - destruct (Z.even q) eqn:Hq.
    + split; [lia | intros _; exact Hq].
    + split; [lia | intros _].
      replace (q + 1) with (Z.succ q) by lia.
      rewrite Z.even_succ, <- Z.negb_even, Hq. reflexivity.
  - split; [lia | intros H; lia].
  - split; [lia | intros H; lia].
Qed.

Lemma round_nearest (x : float) (n : Z) :
  round x = Ok n -> nearest_integer x n.
Proof.
  destruct x as [s | s | | s m e]; unfold round; intros H; try discriminate.
  - cbn. congruence.
  - apply Ok_inj in H. subst n. unfold nearest_integer, signed_mantissa.
    destruct e as [| p | p].
    + destruct s; unfold cond_Zopp; ring.
    + destruct s; unfold cond_Zopp; ring.
    + assert (Hd : 0 < 2 ^ Zpos p) by (apply Z.pow_pos_nonneg; lia).
      destruct (div_half_even_spec (Zpos m) (2 ^ Zpos p) ltac:(lia) Hd)
        as [Hnear Htie].
      cbv zeta. set (d := 2 ^ Zpos p) in *.
      set (k := div_half_even (Zpos m) d) in *.
      destruct s; unfold cond_Zopp.
      * rewrite Z.even_opp.
        replace (Z.abs (2 * (- k * d - - Zpos m)))
          with (Z.abs (2 * (k * d - Zpos m))) by lia.
        split; assumption.
      * split; assumption.
Qed.

Lemma round_half_way (x : float) (k : Z) :
  half_way x k -> round x = Ok (if Z.even k then k else k + 1).
Proof.
  destruct x as [s | s | | s m e]; cbn [half_way]; try contradiction.
  destruct e as [| p | p]; try contradiction.
  unfold signed_mantissa. intros H. unfold round. f_equal.
  assert (Hpow : 2 ^ Zpos p = 2 * 2 ^ (Zpos p - 1)).
  { rewrite <- Z.pow_succ_r by lia. f_equal. lia. }
  assert (Hh : 0 < 2 ^ (Zpos p - 1)) by (apply Z.pow_pos_nonneg; lia).
  set (h := 2 ^ (Zpos p - 1)) in *.
  unfold div_half_even. rewrite Hpow in *.
  destruct s; unfold cond_Zopp in *.
  - assert (Hm : Zpos m = (2 * h) * (- k - 1) + h) by lia.
    rewrite <- (Z.div_unique (Zpos m) (2 * h) (- k - 1) h) by lia.
    rewrite <- (Z.mod_unique (Zpos m) (2 * h) (- k - 1) h) by lia.
    rewrite Z.compare_refl.
    replace (- k - 1) with (- (Z.succ k)) by lia.
    rewrite Z.even_opp, Z.even_succ, <- Z.negb_even.
    destruct (Z.even k); cbn [negb]; lia.
  - assert (Hm : Zpos m = (2 * h) * k + h) by lia.
    rewrite <- (Z.div_unique (Zpos m) (2 * h) k h) by lia.
    rewrite <- (Z.mod_unique (Zpos m) (2 * h) k h) by lia.
    rewrite Z.compare_refl. reflexivity.
Qed.

(** *** [float(n)] of a rounded double never overflows *)










End FloatFacts.

(** ** The invoice totals *)

Section Totals.

Import Float.

(** The two tax accumulators hold the same double at every turn of the
    loop: both receive the same amounts in the same order. *)
Lemma loop_cgst_sgst (products : list ProductItem) :
  forall t c t' c' s',
    loop products (t, c, c) = Ok (t', c', s') -> c' = s'.
Proof.
  induction products as [| product rest IH]; intros t c t' c' s' H.
  - cbn in H. congruence.
  - cbn [loop loop_body] in H.
    destruct (of_int (quantity product)) as [q | e]; cbn [bind] in H;
      [| discriminate].
    eapply IH. exact H.
Qed.

Lemma calculate_invoice_totals_inv (products : list ProductItem) (r : InvoiceTotals) :
  calculate_invoice_totals products = Ok r ->
  exists t c s,
    unrounded_totals products = Ok (t, c, s)
    /\ round (add t (add c s)) = Ok (final_amount r)
    /\ total_taxable_value r = round_ndigits t 2
    /\ total_cgst r = round_ndigits c 2
    /\ total_sgst r = round_ndigits s 2
    /\ total_tax r = round_ndigits (add c s) 2
    /\ round_off r
       = round_ndigits (sub (of_Z (final_amount r)) (add t (add c s))) 2.
Proof.
  unfold calculate_invoice_totals. intros H.
  destruct (unrounded_totals products) as [[[t c] s] | e]; cbn [bind] in H;
    [| discriminate].
  destruct (round (add t (add c s))) as [n | e] eqn:Hround; cbn [bind] in H;
    [| discriminate].
  unfold of_int in H.
  exists t, c, s.
  destruct (of_Z n) as [sz | sz | | sz mz ez] eqn:Hn; cbn [bind] in H;
    try discriminate; injection H as <-; cbn; rewrite ?Hn;
    repeat split; exact Hround.
Qed.

(** C1: in every result the function returns, [total_cgst] and
    [total_sgst] are the same double, and [total_cgst == total_sgst]
    evaluates to true (neither is NaN). *)
Theorem total_cgst_equals_total_sgst (products : list ProductItem) (r : InvoiceTotals) :
  calculate_invoice_totals products = Ok r ->
  total_cgst r = total_sgst r
  /\ eqb (total_cgst r) (total_sgst r) = true.
Proof.
  intros H.
  destruct (calculate_invoice_totals_inv products r H)
    as (t & c & s & Hloop & Hround & _ & Hc & Hs & _).
  pose proof (loop_cgst_sgst products _ _ _ _ _ Hloop) as Hcs. subst s.
  rewrite Hc, Hs. split; [reflexivity |].
  apply eqb_refl, round_ndigits_not_nan, finite_not_nan.
  apply round_returns in Hround.
  apply add_finite_inv in Hround as [_ Htax].
  apply add_finite_inv in Htax as [Hfin _]. exact Hfin.
Qed.

Lemma total_cgst_equals_total_sgst_witness :
  calculate_invoice_totals [scenario_line] = Ok scenario_totals
  /\ total_cgst scenario_totals = total_sgst scenario_totals
  /\ eqb (total_cgst scenario_totals) (total_sgst scenario_totals) = true.
Proof.
  split; [vm_compute; reflexivity |].
  apply (total_cgst_equals_total_sgst [scenario_line] scenario_totals).
  vm_compute; reflexivity.
Defined.

Lemma gross_total_inv (products : list ProductItem) (g : float) :
  gross_total products = Ok g ->
  exists t c s, unrounded_totals products = Ok (t, c, s) /\ g = add t (add c s).
Proof.
  unfold gross_total.
  destruct (unrounded_totals products) as [[[t c] s] | e]; cbn [bind];
    [| discriminate].
  intros H. injection H as <-. eauto.
Qed.

(** C2, as amended: [final_amount] is the integer nearest to the gross
    total the function computes from the unrounded totals, the even one on
    a tie, and the returned [round_off] is [final_amount] minus that gross
    total, rounded to two decimals; the returned [total_taxable_value] and
    [total_tax] are roundings of the same unrounded totals. *)
Theorem round_off_and_final_amount_from_unrounded
    (products : list ProductItem) (r : InvoiceTotals) :
  calculate_invoice_totals products = Ok r ->
  exists t c s,
    unrounded_totals products = Ok (t, c, s)
    /\ nearest_integer (add t (add c s)) (final_amount r)
    /\ round_off r
       = round_ndigits (sub (of_Z (final_amount r)) (add t (add c s))) 2
    /\ total_taxable_value r = round_ndigits t 2
    /\ total_tax r = round_ndigits (add c s) 2.
Proof.
  intros H.
  destruct (calculate_invoice_totals_inv products r H)
    as (t & c & s & Hloop & Hround & Ht & _ & _ & Htax & Hoff).
  exists t, c, s.
  split; [exact Hloop |].
  split; [apply round_nearest; exact Hround |].
  split; [exact Hoff |].
  split; assumption.
Qed.

Lemma round_off_and_final_amount_from_unrounded_witness :
  exists t c s,
    unrounded_totals [scenario_line] = Ok (t, c, s)
    /\ nearest_integer (add t (add c s)) (final_amount scenario_totals)
    /\ round_off scenario_totals
       = round_ndigits (sub (of_Z (final_amount scenario_totals)) (add t (add c s))) 2
    /\ total_taxable_value scenario_totals = round_ndigits t 2
    /\ total_tax scenario_totals = round_ndigits (add c s) 2.
Proof.
  apply (round_off_and_final_amount_from_unrounded [scenario_line] scenario_totals).
  vm_compute; reflexivity.
Defined.

(** C2 as stated fails: for one item at 1.75 with 18% GST the function
    returns taxable value 1.75, tax 0.32, final amount 2 and round-off
    -0.06, while 2 - (1.75 + 0.32) is below -0.069. *)
Lemma round_off_identity_fails_on_returned_values :
  exists r,
    calculate_invoice_totals [small_line] = Ok r
    /\ total_taxable_value r = decimal 175 2
    /\ total_tax r = decimal 32 2
    /\ final_amount r = 2
    /\ round_off r = decimal (-6) 2
    /\ eqb (round_off r)
           (sub (of_Z (final_amount r)) (add (total_taxable_value r) (total_tax r)))
       = false
    /\ ltb (sub (of_Z (final_amount r)) (add (total_taxable_value r) (total_tax r)))
           (decimal (-69) 3)
       = true.
Proof.
  eexists. split; [vm_compute; reflexivity |].
  vm_compute. repeat split.
Qed.

(** C3, as amended: [total_tax] is the sum of the two unrounded tax
    totals, rounded to two decimals, while [total_cgst] and [total_sgst]
    are each of them rounded on its own; the two unrounded totals are
    equal. *)
Theorem total_tax_rounds_the_unrounded_sum
    (products : list ProductItem) (r : InvoiceTotals) :
  calculate_invoice_totals products = Ok r ->
  exists t c,
    unrounded_totals products = Ok (t, c, c)
    /\ is_finite (add c c) = true
    /\ total_cgst r = round_ndigits c 2
    /\ total_sgst r = round_ndigits c 2
    /\ total_tax r = round_ndigits (add c c) 2.
Proof.
  intros H.
  destruct (calculate_invoice_totals_inv products r H)
    as (t & c & s & Hloop & Hround & _ & Hc & Hs & Htax & _).
  pose proof (loop_cgst_sgst products _ _ _ _ _ Hloop) as Hcs. subst s.
  exists t, c.
  split; [exact Hloop |].
  split; [| repeat split; assumption].
  apply round_returns in Hround.
  apply add_finite_inv in Hround as [_ Hfin]. exact Hfin.
Qed.

Lemma total_tax_rounds_the_unrounded_sum_witness :
  exists t c,
    unrounded_totals [five_percent_line] = Ok (t, c, c)
    /\ is_finite (add c c) = true
    /\ decimal 3 2 = round_ndigits c 2
    /\ decimal 3 2 = round_ndigits c 2
    /\ decimal 5 2 = round_ndigits (add c c) 2.
Proof.
  apply (total_tax_rounds_the_unrounded_sum [five_percent_line]
           {| total_taxable_value := decimal 1 0;
              total_cgst := decimal 3 2;
              total_sgst := decimal 3 2;
              total_tax := decimal 5 2;
              round_off := decimal (-5) 2;
              final_amount := 1 |}).
  vm_compute; reflexivity.
Defined.

(** C3 as stated fails: for one item at 1.0 with 5% GST the function
    returns CGST 0.03, SGST 0.03 and tax 0.05. *)
Lemma total_tax_differs_from_returned_cgst_plus_sgst :
  exists r,
    calculate_invoice_totals [five_percent_line] = Ok r
    /\ total_cgst r = decimal 3 2
    /\ total_sgst r = decimal 3 2
    /\ total_tax r = decimal 5 2
    /\ add (total_cgst r) (total_sgst r) = decimal 6 2
    /\ eqb (total_tax r) (add (total_cgst r) (total_sgst r)) = false.
Proof.
  eexists. split; [vm_compute; reflexivity |].
  vm_compute. repeat split.
Qed.

(** C4: [final_amount] is [round(gross_total)], the integer nearest to
    the gross total, and a gross total half-way between two integers goes
    to the even one of them. *)
Theorem final_amount_rounds_half_to_even
    (products : list ProductItem) (r : InvoiceTotals) (g : float) :
  calculate_invoice_totals products = Ok r ->
  gross_total products = Ok g ->
  round g = Ok (final_amount r)
  /\ nearest_integer g (final_amount r)
  /\ forall k, half_way g k ->
               final_amount r = (if Z.even k then k else k + 1).
Proof.
  intros H Hg.
  destruct (calculate_invoice_totals_inv products r H)
    as (t & c & s & Hloop & Hround & _).
  destruct (gross_total_inv products g Hg) as (t' & c' & s' & Hloop' & ->).
  rewrite Hloop in Hloop'. apply Ok_inj in Hloop'.
  injection Hloop' as <- <- <-.
  split; [exact Hround |].
  split; [apply round_nearest; exact Hround |].
  intros k Hk. apply round_half_way in Hk. congruence.
Qed.

(** A gross total of 2242.5 gives 2242, not 2243. *)
Lemma final_amount_rounds_half_to_even_witness :
  exists r,
    calculate_invoice_totals [half_rupee_line] = Ok r
    /\ gross_total [half_rupee_line] = Ok (decimal 22425 1)
    /\ final_amount r = 2242.
Proof.
  eexists. split; [vm_compute; reflexivity |].
  split; [vm_compute; reflexivity |].
  refine (proj2 (proj2 (final_amount_rounds_half_to_even [half_rupee_line] _
                          (decimal 22425 1) _ _)) 2242 _);
    vm_compute; reflexivity.
Defined.

(** *** When the function returns *)

Lemma of_int_raises (n : Z) (e : exn) :
  of_int n = Raise e -> e = OverflowError.
Proof. unfold of_int. destruct (of_Z n); congruence. Qed.






End Totals.

(** ** The amount in words, compared with its word list *)

Section Words.

Lemma append_assoc (a b c : string) : (a ++ b) ++ c = a ++ (b ++ c).
Proof. induction a as [| x a IH]; cbn; congruence. Qed.

Lemma append_empty_r (a : string) : a ++ "" = a.
Proof. induction a as [| x a IH]; cbn; congruence. Qed.

Lemma join_words_app (a b : list string) :
  a <> [] -> b <> [] ->
  join_words (a ++ b) = join_words a ++ " " ++ join_words b.
Proof.
  intros Ha Hb. induction a as [| x a IH]; [congruence |].
  destruct a as [| y a].
  - destruct b as [| z b]; [congruence | reflexivity].
  - change (join_words ((x :: y :: a) ++ b))
      with (x ++ " " ++ join_words ((y :: a) ++ b)).
    rewrite IH by discriminate.
    change (join_words (x :: y :: a)) with (x ++ " " ++ join_words (y :: a)).
    rewrite !append_assoc. reflexivity.
Qed.

Lemma below_thousand_all (P : Z -> bool) :
  forallb P below_thousand = true ->
  forall n, 0 <= n < 1000 -> P n = true.
Proof.
  intros H n Hn. rewrite forallb_forall in H. apply H.
  unfold below_thousand. apply in_map_iff. exists (Z.to_nat n).
  split; [lia |]. apply in_seq. lia.
Qed.

Lemma hundreds_check_all (n : Z) : 0 <= n < 1000 -> hundreds_check n = true.
Proof. apply below_thousand_all. vm_compute. reflexivity. Qed.

Lemma convert_hundreds_words (n : Z) :
  0 <= n < 1000 ->
  convert_hundreds n = Ok (join_words (hundreds_words n))
  /\ forallb word_ok (hundreds_words n) = true
  /\ (0 < n -> hundreds_words n <> [])
  /\ fold_left word_step (hundreds_words n) (0, 0) = (0, n).
Proof.
  intros Hn. pose proof (hundreds_check_all n Hn) as H.
  unfold hundreds_check in H.
  destruct (convert_hundreds n) as [s | e]; [| discriminate].
  destruct (fold_left word_step (hundreds_words n) (0, 0)) as [total current].
  rewrite !andb_true_iff in H.
  destruct H as [[[Hs Hok] Hne] [Ht Hc]].
  apply String.eqb_eq in Hs. apply Z.eqb_eq in Ht, Hc. subst.
  repeat split; auto.
  intros Hpos Hnil. destruct (Z.ltb_spec 0 n) as [_ | Hle]; [| lia].
  rewrite Hnil in Hne. discriminate Hne.
Qed.

(** *** Strings built from words *)

Lemma word_ok_inv (w : string) :
  word_ok w = true ->
  exists c rest,
    w = String c rest
    /\ Str.is_space c = false
    /\ forallb (fun c => negb (Str.is_space c)) (list_ascii_of_string rest) = true.
Proof.
  unfold word_ok. destruct w as [| c rest]; [discriminate |].
  cbn [String.eqb negb andb list_ascii_of_string forallb].
  rewrite andb_true_iff, negb_true_iff. intros [Hc Hrest]. eauto.
Qed.

Lemma rstrip_space_free (w : string) :
  forallb (fun c => negb (Str.is_space c)) (list_ascii_of_string w) = true ->
  Str.rstrip w = w.
Proof.
  induction w as [| c rest IH]; [reflexivity |].
  cbn [list_ascii_of_string forallb]. rewrite andb_true_iff, negb_true_iff.
  intros [Hc Hrest]. cbn [Str.rstrip]. rewrite IH by exact Hrest.
  destruct rest; [rewrite Hc |]; reflexivity.
Qed.

Lemma rstrip_append_word (x w : string) :
  word_ok w = true -> Str.rstrip (x ++ w) = x ++ w.
Proof.
  intros Hw. destruct (word_ok_inv w Hw) as (c & rest & -> & Hc & Hrest).
  induction x as [| a x IH].
  - apply rstrip_space_free. cbn [append list_ascii_of_string forallb].
    rewrite Hc. exact Hrest.
  - cbn [append Str.rstrip]. rewrite IH.
    destruct x; reflexivity.
Qed.

Lemma rstrip_append_space (s : string) : Str.rstrip (s ++ " ") = Str.rstrip s.
Proof.
  induction s as [| c rest IH]; [reflexivity |].
  cbn [append Str.rstrip]. rewrite IH. reflexivity.
Qed.

Lemma join_words_ends_with_word (ws : list string) :
  ws <> [] -> forallb word_ok ws = true ->
  exists x w, join_words ws = x ++ w /\ word_ok w = true.
Proof.
  induction ws as [| a ws IH]; [congruence |]. intros _.
  cbn [forallb]. rewrite andb_true_iff. intros [Ha Hws].
  destruct ws as [| b ws].
  - exists "", a. split; [reflexivity | exact Ha].
  - destruct (IH ltac:(discriminate) Hws) as (x & w & Hx & Hw).
    exists (a ++ " " ++ x), w. split; [| exact Hw].
    change (join_words (a :: b :: ws)) with (a ++ " " ++ join_words (b :: ws)).
    rewrite Hx, !append_assoc. reflexivity.
Qed.

Lemma join_words_starts_with_letter (ws : list string) :
  ws <> [] -> forallb word_ok ws = true ->
  exists c rest, join_words ws = String c rest /\ Str.is_space c = false.
Proof.
  destruct ws as [| a ws]; [congruence |]. intros _.
  cbn [forallb]. rewrite andb_true_iff. intros [Ha _].
  destruct (word_ok_inv a Ha) as (c & rest & -> & Hc & _).
  destruct ws as [| b ws].
  - exists c, rest. split; [reflexivity | exact Hc].
  - exists c, (rest ++ " " ++ join_words (b :: ws)).
    split; [reflexivity | exact Hc].
Qed.

(** [strip] removes the one space the code leaves after the last word. *)
Lemma strip_join_words_space (ws : list string) :
  ws <> [] -> forallb word_ok ws = true ->
  Str.strip (join_words ws ++ " ") = join_words ws.
Proof.
  intros Hne Hok. unfold Str.strip.
  destruct (join_words_starts_with_letter ws Hne Hok) as (c & rest & Hj & Hc).
  destruct (join_words_ends_with_word ws Hne Hok) as (x & w & Hx & Hw).
  assert (Hl : Str.lstrip (join_words ws ++ " ") = join_words ws ++ " ").
  { rewrite Hj. cbn [append Str.lstrip]. rewrite Hc. reflexivity. }
  rewrite Hl, rstrip_append_space, Hx. apply rstrip_append_word, Hw.
Qed.

Lemma join_words_scale (ws : list string) (x : string) :
  ws <> [] ->
  join_words ws ++ " " ++ x ++ " " = join_words (ws ++ [x]) ++ " ".
Proof.
  intros Hne. rewrite join_words_app by (assumption || discriminate).
  cbn [join_words String.concat]. rewrite !append_assoc. reflexivity.
Qed.

Lemma join_words_segments (a b : list string) :
  a <> [] -> b <> [] ->
  (join_words a ++ " ") ++ join_words b ++ " " = join_words (a ++ b) ++ " ".
Proof.
  intros Ha Hb. rewrite join_words_app by assumption.
  rewrite !append_assoc. reflexivity.
Qed.

Lemma finish_words (ws : list string) :
  ws <> [] -> forallb word_ok ws = true ->
  Str.strip (join_words ws ++ " ") ++ " Rupees Only"
  = join_words (ws ++ ["Rupees"; "Only"]).
Proof.
  intros Hne Hok. rewrite strip_join_words_space by assumption.
  rewrite join_words_app by (assumption || discriminate). reflexivity.
Qed.

(** *** [number_to_words] against the word list *)

Lemma mod_100000_mod_1000 (n : Z) : (n mod 100000) mod 1000 = n mod 1000.
Proof. Z.div_mod_to_equations. lia. Qed.

Lemma number_to_words_try_words (n : Z) :
  0 < n < 100000000 ->
  number_to_words_try (PyInt n)
  = Ok (join_words (amount_words n ++ ["Rupees"; "Only"]))
  /\ amount_words n <> []
  /\ forallb word_ok (amount_words n) = true.
Proof.
  intros Hn. unfold number_to_words_try, py_int. cbn [bind].
  destruct (Z.eqb_spec n 0) as [H0 | _]; [lia |].
  unfold amount_words.
  destruct (Z.ltb_spec n 1000) as [Hlt | Hge].
  - destruct (convert_hundreds_words n ltac:(lia)) as (Hc & Hok & Hne & _).
    rewrite Hc. cbn [bind].
    rewrite (Z.div_small n 100000), (Z.mod_small n 100000), (Z.div_small n 1000),
      (Z.mod_small n 1000) by lia.
    change (0 <? 0) with false. cbn [app].
    destruct (Z.ltb_spec 0 n) as [_ | Hle]; [| lia].
    split; [| split; [apply Hne; lia | exact Hok]].
    rewrite join_words_app by (try apply Hne; lia || discriminate).
    reflexivity.
  - destruct (Z.ltb_spec n 100000) as [Hlt | Hge'].
    + rewrite (Z.div_small n 100000), (Z.mod_small n 100000) by lia.
      change (0 <? 0) with false. cbn [app].
      assert (Ht : 0 < n / 1000 < 1000) by (Z.div_mod_to_equations; lia).
      assert (Hr : 0 <= n mod 1000 < 1000) by (Z.div_mod_to_equations; lia).
      destruct (convert_hundreds_words (n / 1000) ltac:(lia))
        as (Hc & Hok & Hne & _).
      destruct (convert_hundreds_words (n mod 1000) Hr)
        as (Hc' & Hok' & Hne' & _).
      rewrite Hc. cbn [bind].
      destruct (Z.ltb_spec 0 (n / 1000)) as [_ | Hle]; [| lia].
      change " Thousand " with (" " ++ "Thousand" ++ " ").
      rewrite join_words_scale by (apply Hne; lia).
      assert (Hne1 : (hundreds_words (n / 1000) ++ ["Thousand"])%list <> [])
        by (intros H; apply app_eq_nil in H as [_ H]; discriminate H).
      assert (Hok1 : forallb word_ok (hundreds_words (n / 1000) ++ ["Thousand"]) = true)
        by (rewrite forallb_app, Hok; reflexivity).
      destruct (Z.ltb_spec 0 (n mod 1000)) as [Hpos | Hzero].
      * rewrite Hc'. cbn [bind].
        rewrite join_words_segments by (try apply Hne'; assumption).
        assert (Hne2 : ((hundreds_words (n / 1000) ++ ["Thousand"])
                        ++ hundreds_words (n mod 1000))%list <> [])
          by (intros H; apply app_eq_nil in H as [H _]; contradiction).
        rewrite finish_words
          by (try exact Hne2; rewrite forallb_app, Hok1, Hok'; reflexivity).
        split; [reflexivity |].
        split; [exact Hne2 | rewrite forallb_app, Hok1, Hok'; reflexivity].
      * cbn [bind]. rewrite finish_words by assumption.
        rewrite app_nil_r.
        split; [reflexivity | split; assumption].
    + assert (Hl : 0 < n / 100000 < 1000) by (Z.div_mod_to_equations; lia).
      assert (Ht : 0 <= n mod 100000 / 1000 < 1000)
        by (Z.div_mod_to_equations; lia).
      assert (Hr : 0 <= n mod 1000 < 1000) by (Z.div_mod_to_equations; lia).
      destruct (convert_hundreds_words (n / 100000) ltac:(lia))
        as (Hcl & Hokl & Hnel & _).
      destruct (convert_hundreds_words (n mod 100000 / 1000) Ht)
        as (Hct & Hokt & Hnet & _).
      destruct (convert_hundreds_words (n mod 1000) Hr)
        as (Hcr & Hokr & Hner & _).
      rewrite Hcl. cbn [bind].
      destruct (Z.ltb_spec 0 (n / 100000)) as [_ | Hle]; [| lia].
      change " Lakh " with (" " ++ "Lakh" ++ " ").
      rewrite join_words_scale by (apply Hnel; lia).
      set (L := (hundreds_words (n / 100000) ++ ["Lakh"])%list).
      assert (HneL : L <> [])
        by (intros H; apply app_eq_nil in H as [_ H]; discriminate H).
      assert (HokL : forallb word_ok L = true)
        by (subst L; rewrite forallb_app, Hokl; reflexivity).
      set (T := (if 0 <? n mod 100000 / 1000
                 then hundreds_words (n mod 100000 / 1000) ++ ["Thousand"]
                 else [])%list).
      assert (HokT : forallb word_ok T = true).
      { subst T. destruct (0 <? n mod 100000 / 1000); [| reflexivity].
        rewrite forallb_app, Hokt. reflexivity. }
      assert (Hstep1 :
        (if 1000 <=? n mod 100000
         then h <- convert_hundreds (n mod 100000 / 1000) ;;
              Ok ((join_words L ++ " ") ++ h ++ " Thousand ",
                  (n mod 100000) mod 1000)
         else Ok (join_words L ++ " ", n mod 100000))
        = Ok (join_words (L ++ T) ++ " ", n mod 1000)).
      { subst T. destruct (Z.leb_spec 1000 (n mod 100000)) as [Hbig | Hsmall].
        - rewrite Hct. cbn [bind].
          destruct (Z.ltb_spec 0 (n mod 100000 / 1000)) as [Hpos | Hz];
            [| Z.div_mod_to_equations; lia].
          change " Thousand " with (" " ++ "Thousand" ++ " ").
          rewrite join_words_scale by (apply Hnet; lia).
          rewrite join_words_segments;
            [| assumption
             | intros H; apply app_eq_nil in H as [_ H]; discriminate H].
          rewrite mod_100000_mod_1000. reflexivity.
        - destruct (Z.ltb_spec 0 (n mod 100000 / 1000)) as [Hpos | Hz];
            [Z.div_mod_to_equations; lia |].
          rewrite app_nil_r. f_equal. f_equal.
          Z.div_mod_to_equations; lia. }
      rewrite Hstep1. cbn [bind].
      assert (HneLT : (L ++ T)%list <> [])
        by (intros H; apply app_eq_nil in H as [H _]; contradiction).
      assert (HokLT : forallb word_ok (L ++ T) = true)
        by (rewrite forallb_app, HokL, HokT; reflexivity).
      destruct (Z.ltb_spec 0 (n mod 1000)) as [Hpos | Hzero].
      * rewrite Hcr. cbn [bind].
        rewrite join_words_segments by (try apply Hner; assumption).
        assert (Hne3 : ((L ++ T) ++ hundreds_words (n mod 1000))%list <> [])
          by (intros H; apply app_eq_nil in H as [H _]; contradiction).
        assert (Hok3 : forallb word_ok ((L ++ T) ++ hundreds_words (n mod 1000)) = true)
          by (rewrite forallb_app, HokLT, Hokr; reflexivity).
        rewrite finish_words by assumption.
        rewrite <- !app_assoc in *.
        split; [reflexivity | split; assumption].
      * cbn [bind]. rewrite finish_words by assumption.
        rewrite app_nil_r, <- !app_assoc in *.
        split; [reflexivity | split; assumption].
Qed.

Lemma number_to_words_try_int (num : pyval) (n : Z) :
  py_int num = Ok n -> number_to_words_try num = number_to_words_try (PyInt n).
Proof.
  intros H. unfold number_to_words_try. rewrite H. reflexivity.
Qed.

(** *** Reading the words back *)

Lemma split_words_from_word (w rest cur : string) :
  forallb (fun c => negb (Str.is_space c)) (list_ascii_of_string w) = true ->
  split_words_from (w ++ rest) cur = split_words_from rest (cur ++ w).
Proof.
  revert cur. induction w as [| c w IH]; intros cur.
  - intros _. rewrite append_empty_r. reflexivity.
  - cbn [list_ascii_of_string forallb]. rewrite andb_true_iff, negb_true_iff.
    intros [Hc Hw]. cbn [append split_words_from].
    destruct (Ascii.eqb_spec c " ") as [-> | _]; [discriminate Hc |].
    rewrite IH by exact Hw. rewrite append_assoc. reflexivity.
Qed.

Lemma word_ok_space_free (w : string) :
  word_ok w = true ->
  w <> ""
  /\ forallb (fun c => negb (Str.is_space c)) (list_ascii_of_string w) = true.
Proof.
  unfold word_ok. rewrite andb_true_iff, negb_true_iff.
  intros [Hne Hw]. split; [apply String.eqb_neq, Hne | exact Hw].
Qed.

Lemma split_words_join_words (ws : list string) :
  forallb word_ok ws = true -> split_words (join_words ws) = ws.
Proof.
  unfold split_words. induction ws as [| a ws IH]; [reflexivity |].
  cbn [forallb]. rewrite andb_true_iff. intros [Ha Hws].
  destruct (word_ok_space_free a Ha) as [Hne Hsf].
  apply String.eqb_neq in Hne.
  destruct ws as [| b ws].
  - cbn [join_words String.concat].
    rewrite <- (append_empty_r a) at 1.
    rewrite split_words_from_word by exact Hsf.
    cbn [split_words_from append]. rewrite Hne. reflexivity.
  - change (join_words (a :: b :: ws)) with (a ++ " " ++ join_words (b :: ws)).
    rewrite split_words_from_word by exact Hsf.
    cbn [append split_words_from]. change (Ascii.eqb " " " ") with true.
    cbv iota. rewrite Hne. f_equal. apply IH, Hws.
Qed.

Lemma fold_word_step_total (ws : list string) :
  forall total current,
    fold_left word_step ws (total, current)
    = (total + fst (fold_left word_step ws (0, current)),
       snd (fold_left word_step ws (0, current))).
Proof.
  induction ws as [| w ws IH]; intros total current.
  - cbn. f_equal. lia.
  - cbn [fold_left]. unfold word_step at 2 4 6.
    destruct (String.eqb w "Hundred");
      [| destruct (String.eqb w "Thousand");
         [| destruct (String.eqb w "Lakh")]];
      rewrite IH; symmetry; rewrite IH; cbn [fst snd]; f_equal; lia.
Qed.

Lemma fold_hundreds_words (h : Z) (rest : list string) (total : Z) :
  0 <= h < 1000 ->
  fold_left word_step (hundreds_words h ++ rest) (total, 0)
  = fold_left word_step rest (total, h).
Proof.
  intros Hh. destruct (convert_hundreds_words h Hh) as (_ & _ & _ & Hv).
  rewrite fold_left_app, fold_word_step_total, Hv. cbn [fst snd].
  rewrite Z.add_0_r. reflexivity.
Qed.

Lemma words_value_amount_words (n : Z) :
  0 <= n < 100000000 ->
  words_value (amount_words n ++ ["Rupees"; "Only"]) = n.
Proof.
  intros Hn. unfold words_value, amount_words.
  assert (Hl : 0 <= n / 100000 < 1000) by (Z.div_mod_to_equations; lia).
  assert (Ht : 0 <= n mod 100000 / 1000 < 1000)
    by (Z.div_mod_to_equations; lia).
  assert (Hr : 0 <= n mod 1000 < 1000) by (Z.div_mod_to_equations; lia).
  assert (Hsum : n / 100000 * 100000 + n mod 100000 / 1000 * 1000 + n mod 1000 = n)
    by (Z.div_mod_to_equations; lia).
  set (l := n / 100000) in *. set (t := n mod 100000 / 1000) in *.
  set (r := n mod 1000) in *.
  assert (Hseg : forall h scale rest total,
            0 <= h < 1000 ->
            word_step (total, h) scale = (total + h * (if String.eqb scale "Lakh" then 100000 else 1000), 0) ->
            fold_left word_step
              ((if 0 <? h then hundreds_words h ++ [scale] else []) ++ rest)
              (total, 0)
            = fold_left word_step rest
                (total + h * (if String.eqb scale "Lakh" then 100000 else 1000), 0)).
  { intros h scale rest total Hh Hscale.
    destruct (Z.ltb_spec 0 h) as [Hpos | Hz].
    - rewrite <- app_assoc, fold_hundreds_words by exact Hh.
      cbn [app fold_left]. rewrite Hscale. reflexivity.
    - replace h with 0 by lia. cbn [app]. do 2 f_equal. lia. }
  rewrite <- !app_assoc.
  rewrite (Hseg l "Lakh") by (assumption || reflexivity).
  rewrite (Hseg t "Thousand") by (assumption || reflexivity).
  cbn [String.eqb Ascii.eqb Bool.eqb].
  assert (Hlast : forall total,
            fold_left word_step
              ((if 0 <? r then hundreds_words r else []) ++ ["Rupees"; "Only"])
              (total, 0)
            = (total, r)).
  { intros total. destruct (Z.ltb_spec 0 r) as [Hpos | Hz].
    - rewrite fold_hundreds_words by exact Hr.
      cbn. f_equal. lia.
    - replace r with 0 by lia. reflexivity. }
  rewrite Hlast. lia.
Qed.

Lemma number_to_words_parse (n : Z) :
  0 <= n < 100000000 ->
  exists s,
    number_to_words (PyInt n) = Ok s /\ parse_amount s = n /\ s <> fallback.
Proof.
  intros Hn. destruct (Z.eq_dec n 0) as [-> | Hne].
  - exists "Zero Rupees Only". repeat split. discriminate.
  - destruct (number_to_words_try_words n ltac:(lia)) as (Htry & _ & Hok).
    exists (join_words (amount_words n ++ ["Rupees"; "Only"])).
    assert (Hparse : parse_amount (join_words (amount_words n ++ ["Rupees"; "Only"])) = n).
    { unfold parse_amount. rewrite split_words_join_words.
      - apply words_value_amount_words, Hn.
      - rewrite forallb_app, Hok. reflexivity. }
    split; [unfold number_to_words; rewrite Htry; reflexivity |].
    split; [exact Hparse |].
    intros Heq. rewrite Heq in Hparse. vm_compute in Hparse. lia.
Qed.

(** X1: for an amount from 1 to 99,999,999 the text is the words of the
    lakhs, of the thousands and of the rest, each with its scale word and
    each left out when zero, then "Rupees Only", with exactly one space
    between two words and none at either end. *)
Theorem number_to_words_joins_amount_words (num : pyval) (n : Z) :
  py_int num = Ok n ->
  0 < n < 100000000 ->
  number_to_words num
  = Ok (join_words (amount_words n ++ ["Rupees"; "Only"])).
Proof.
  intros Hint Hn. unfold number_to_words.
  rewrite (number_to_words_try_int num n Hint).
  destruct (number_to_words_try_words n Hn) as (Htry & _).
  rewrite Htry. reflexivity.
Qed.

Lemma number_to_words_joins_amount_words_witness :
  number_to_words (PyFloat (Float.decimal 9999999975 2))
  = Ok (join_words (amount_words 99999999 ++ ["Rupees"; "Only"])).
Proof.
  apply (number_to_words_joins_amount_words
           (PyFloat (Float.decimal 9999999975 2)) 99999999).
  - vm_compute. reflexivity.
  - lia.
Defined.

(** X2: below 100,000,000 the text can be read back: the value of its
    words is the amount. *)
Theorem number_to_words_reads_back (num : pyval) (n : Z) :
  py_int num = Ok n ->
  0 <= n < 100000000 ->
  exists s, number_to_words num = Ok s /\ parse_amount s = n.
Proof.
  intros Hint Hn.
  destruct (number_to_words_parse n Hn) as (s & Hs & Hparse & _).
  exists s. split; [| exact Hparse].
  unfold number_to_words in *.
  rewrite (number_to_words_try_int num n Hint). exact Hs.
Qed.

Lemma number_to_words_reads_back_witness :
  exists s,
    number_to_words (PyInt 70019) = Ok s /\ parse_amount s = 70019.
Proof.
  apply (number_to_words_reads_back (PyInt 70019) 70019).
  - reflexivity.
  - lia.
Defined.

(** X3: two different amounts below 100,000,000 never get the same
    text. *)
Theorem number_to_words_injective (a b : Z) :
  0 <= a < 100000000 ->
  0 <= b < 100000000 ->
  a <> b ->
  number_to_words (PyInt a) <> number_to_words (PyInt b).
Proof.
  intros Ha Hb Hab Heq.
  destruct (number_to_words_parse a Ha) as (sa & Hsa & Hpa & _).
  destruct (number_to_words_parse b Hb) as (sb & Hsb & Hpb & _).
  rewrite Hsa, Hsb in Heq. apply Ok_inj in Heq. congruence.
Qed.

Lemma number_to_words_injective_witness :
  number_to_words (PyInt 1100000) <> number_to_words (PyInt 11000).
Proof.
  apply (number_to_words_injective 1100000 11000); lia.
Defined.

(** X4: on an integer the fallback text is returned exactly from
    100,000,000 on. *)
Theorem number_to_words_fallback_iff (n : Z) :
  number_to_words (PyInt n) = Ok fallback <-> 100000000 <= n.
Proof.
  split.
  - intros H. destruct (Z_lt_le_dec n 100000000) as [Hlt | Hge]; [| exact Hge].
    exfalso. destruct (Z_lt_le_dec n 0) as [Hneg | Hpos].
    + unfold number_to_words, number_to_words_try, py_int in H.
      cbn [bind] in H.
      destruct (Z.eqb_spec n 0) as [H0 | _]; [lia |].
      destruct (Z.ltb_spec n 1000) as [_ | H1]; [| lia].
      rewrite convert_hundreds_negative in H by assumption.
      discriminate H.
    + destruct (number_to_words_parse n ltac:(lia)) as (s & Hs & _ & Hne).
      rewrite Hs in H. apply Ok_inj in H. contradiction.
  - intros Hn. unfold number_to_words, number_to_words_try, py_int.
    cbn [bind].
    destruct (Z.eqb_spec n 0) as [H0 | _]; [lia |].
    destruct (Z.ltb_spec n 1000) as [H1 | _]; [lia |].
    destruct (Z.ltb_spec n 100000) as [H2 | _]; [lia |].
    rewrite convert_hundreds_out_of_range; [reflexivity |].
    apply Z.div_le_lower_bound; lia.
Qed.

(** X5: [convert_hundreds] returns below 1000, negative numbers included,
    and raises [IndexError] from 1000 on. *)
Theorem convert_hundreds_returns_below_thousand (n : Z) :
  (n < 1000 -> exists s, convert_hundreds n = Ok s)
  /\ (1000 <= n -> convert_hundreds n = Raise IndexError).
Proof.
  split; [| apply convert_hundreds_out_of_range].
  intros Hn. destruct (Z_lt_le_dec n 0) as [Hneg | Hpos].
  - exists "". apply convert_hundreds_negative, Hneg.
  - destruct (convert_hundreds_words n ltac:(lia)) as (Hc & _). eauto.
Qed.

End Words.

(** ** More on the invoice totals *)

Section MoreTotals.

Import Float.

Lemma sub_finite_not_nan (x y : float) :
  is_finite x = true -> is_finite y = true -> is_nan (sub x y) = false.
Proof.
  destruct x as [sx | sx | | sx mx ex], y as [sy | sy | | sy my ey];
    try discriminate; intros _ _;
    try (destruct sx, sy; reflexivity); try reflexivity.
  unfold sub, SFsub.
  match goal with
  | |- is_nan (binary_normalize _ _ ?z _ _) = false => destruct z as [| p | p]
  end; cbn [binary_normalize]; try reflexivity;
    unfold binary_round; destruct (shl_align _ _ _) as [mz ez];
    apply binary_round_aux_not_nan; lia.
Qed.

Lemma of_int_is_finite (n : Z) (x : float) :
  of_int n = Ok x -> is_finite x = true.
Proof.
  unfold of_int, of_Z.
  assert (Hnan : is_nan (binary_normalize prec emax n 0 false) = false).
  { destruct n as [| p | p]; cbn [binary_normalize]; try reflexivity;
      unfold binary_round; destruct (shl_align _ _ _) as [mz ez];
      apply binary_round_aux_not_nan; lia. }
  destruct (binary_normalize prec emax n 0 false); intros H;
    try discriminate; apply Ok_inj in H; subst x; reflexivity.
Qed.

(** X6: no field of a returned result is NaN. *)
Theorem returned_totals_are_numbers (products : list ProductItem) (r : InvoiceTotals) :
  calculate_invoice_totals products = Ok r ->
  is_nan (total_taxable_value r) = false
  /\ is_nan (total_cgst r) = false
  /\ is_nan (total_sgst r) = false
  /\ is_nan (total_tax r) = false
  /\ is_nan (round_off r) = false.
Proof.
  unfold calculate_invoice_totals. intros H.
  destruct (unrounded_totals products) as [[[t c] s] | e]; cbn [bind] in H;
    [| discriminate].
  destruct (round (add t (add c s))) as [n | e] eqn:Hround; cbn [bind] in H;
    [| discriminate].
  destruct (of_int n) as [x | e] eqn:Hx; cbn [bind] in H; [| discriminate].
  apply Ok_inj in H. subst r.
  cbn [total_taxable_value total_cgst total_sgst total_tax round_off].
  pose proof (round_returns _ _ Hround) as Hg.
  destruct (add_finite_inv _ _ Hg) as [Ht Htax].
  destruct (add_finite_inv _ _ Htax) as [Hc Hs].
  apply of_int_is_finite in Hx.
  repeat split; apply round_ndigits_not_nan;
    auto using finite_not_nan, sub_finite_not_nan.
Qed.

Lemma returned_totals_are_numbers_witness :
  is_nan (total_taxable_value scenario_totals) = false
  /\ is_nan (total_cgst scenario_totals) = false
  /\ is_nan (total_sgst scenario_totals) = false
  /\ is_nan (total_tax scenario_totals) = false
  /\ is_nan (round_off scenario_totals) = false.
Proof.
  apply (returned_totals_are_numbers [scenario_line] scenario_totals).
  vm_compute. reflexivity.
Defined.

Lemma loop_without_gst (products : list ProductItem) :
  Forall (fun product => exists s, gst_rate product = S754_zero s) products ->
  forall t c t' c' s',
    c = zero \/ c = S754_nan ->
    loop products (t, c, c) = Ok (t', c', s') ->
    (c' = zero \/ c' = S754_nan) /\ s' = c'.
Proof.
  induction 1 as [| product rest [s Hgst] _ IH]; intros t c t' c' s' Hc H.
  - cbn in H. apply Ok_inj in H. injection H as _ <- <-. auto.
  - cbn [loop loop_body] in H.
    destruct (of_int (quantity product)) as [q | e]; cbn [bind] in H;
      [| discriminate].
    rewrite Hgst in H.
    eapply IH; [| exact H].
    set (taxable := sub _ _).
    unfold float_2, float_100.
    destruct Hc as [-> | ->]; [| right; reflexivity].
    destruct taxable as [st | st | | st mt et]; destruct s; try destruct st;
      (left; reflexivity) || (right; reflexivity).
Qed.

(** X7: when every line has a GST rate of zero, the CGST, the SGST and the
    tax of a returned result are 0.0. *)
Theorem totals_without_gst (products : list ProductItem) (r : InvoiceTotals) :
  Forall (fun product => exists s, gst_rate product = S754_zero s) products ->
  calculate_invoice_totals products = Ok r ->
  total_cgst r = zero /\ total_sgst r = zero /\ total_tax r = zero.
Proof.
  intros Hgst H.
  destruct (calculate_invoice_totals_inv products r H)
    as (t & c & s & Hloop & Hround & _ & Hc & Hs & Htax & _).
  unfold unrounded_totals in Hloop.
  destruct (loop_without_gst products Hgst _ _ _ _ _ (or_introl eq_refl) Hloop)
    as [Hzero ->].
  rewrite Hc, Hs, Htax.
  destruct Hzero as [-> | ->]; [repeat split |].
  apply round_returns in Hround.
  apply add_finite_inv in Hround as [_ Hfin].
  apply add_finite_inv in Hfin as [Hfin _]. discriminate Hfin.
Qed.

Lemma totals_without_gst_witness :
  exists r,
    calculate_invoice_totals [half_rupee_line] = Ok r
    /\ total_cgst r = zero /\ total_sgst r = zero /\ total_tax r = zero.
Proof.
  eexists. split; [vm_compute; reflexivity |].
  apply (totals_without_gst [half_rupee_line]).
  - repeat constructor. exists false. reflexivity.
  - vm_compute. reflexivity.
Defined.

End MoreTotals.

(** ** More on the invoice number *)

Section Numbering.







(** *** Printing a number and reading it back *)

Lemma digit_of_ascii (m : Z) :
  0 <= m < 10 -> Str.digit_of (ascii_of_nat (Z.to_nat (48 + m))) = Some m.
Proof.
  intros H.
  assert (Hm : In m [0; 1; 2; 3; 4; 5; 6; 7; 8; 9]) by (cbn; lia).
  cbn in Hm. repeat destruct Hm as [<- | Hm]; try reflexivity. contradiction.
Qed.

Lemma digit_char (c : ascii) (d : Z) :
  Str.digit_of c = Some d ->
  Str.is_space c = false /\ c <> "I"%char /\ c <> "-"%char /\ c <> "+"%char.
Proof.
  destruct c as [[] [] [] [] [] [] [] []]; vm_compute; intros H;
    try discriminate H; repeat split; discriminate.
Qed.

Lemma is_decimal_cons (c : ascii) (s : string) :
  is_decimal (String c s) = true ->
  (exists d, Str.digit_of c = Some d) /\ is_decimal s = true.
Proof.
  unfold is_decimal. cbn [list_ascii_of_string forallb].
  rewrite andb_true_iff. intros [Hc Hs]. split; [| exact Hs].
  destruct (Str.digit_of c) as [d |]; [eauto | discriminate].
Qed.

Lemma is_decimal_app (a b : string) :
  is_decimal a = true -> is_decimal b = true -> is_decimal (a ++ b) = true.
Proof.
  intros Ha Hb. induction a as [| c a IH]; [exact Hb |].
  destruct (is_decimal_cons c a Ha) as [[d Hd] Ha'].
  unfold is_decimal in *. cbn [append list_ascii_of_string forallb].
  rewrite Hd. cbn [andb]. apply IH, Ha'.
Qed.

Lemma is_decimal_space_free (s : string) :
  is_decimal s = true ->
  forallb (fun c => negb (Str.is_space c)) (list_ascii_of_string s) = true.
Proof.
  induction s as [| c s IH]; [reflexivity |]. intros H.
  destruct (is_decimal_cons c s H) as [[d Hd] Hs].
  cbn [list_ascii_of_string forallb].
  destruct (digit_char c d Hd) as (-> & _). cbn [negb andb]. apply IH, Hs.
Qed.

(** The digits [of_pos_digits] writes in front of [acc], read by
    [digits], give the number back. *)
Lemma of_pos_digits_spec (fuel : nat) :
  forall n acc,
    0 <= n < 10 ^ Z.of_nat (S fuel) ->
    exists body k,
      Str.of_pos_digits (S fuel) n acc = body ++ acc
      /\ body <> ""
      /\ Z.of_nat (String.length body) = k
      /\ is_decimal body = true
      /\ forall rest a count b,
           Str.digits (body ++ rest) a count b
           = Str.digits rest (a * 10 ^ k + n) (count + k) true.
Proof.
  assert (Hone : forall n acc, 0 <= n < 10 ->
            exists body k,
              String (ascii_of_nat (Z.to_nat (48 + n mod 10))) acc = body ++ acc
              /\ body <> ""
              /\ Z.of_nat (String.length body) = k
              /\ is_decimal body = true
              /\ forall rest a count b,
                   Str.digits (body ++ rest) a count b
                   = Str.digits rest (a * 10 ^ k + n) (count + k) true).
  { intros n acc Hn. rewrite Z.mod_small by lia.
    exists (String (ascii_of_nat (Z.to_nat (48 + n))) ""), 1.
    split; [reflexivity |]. split; [discriminate |]. split; [reflexivity |].
    split.
    - unfold is_decimal. cbn [list_ascii_of_string forallb].
      rewrite digit_of_ascii by lia. reflexivity.
    - intros rest a count b. cbn [append Str.digits].
      rewrite digit_of_ascii by lia. f_equal. lia. }
  induction fuel as [| fuel IH]; intros n acc Hn.
  - cbn [Str.of_pos_digits].
    destruct (Z.ltb_spec n 10) as [Hlt | Hge];
      [apply Hone; lia | change (10 ^ Z.of_nat 1) with 10 in Hn; lia].
  - change (Str.of_pos_digits (S (S fuel)) n acc)
      with (let acc' := String (ascii_of_nat (Z.to_nat (48 + n mod 10))) acc in
            if n <? 10 then acc' else Str.of_pos_digits (S fuel) (n / 10) acc').
    cbv zeta.
    destruct (Z.ltb_spec n 10) as [Hlt | Hge]; [apply Hone; lia |].
    assert (Hdiv : 0 <= n / 10 < 10 ^ Z.of_nat (S fuel)).
    { rewrite (Nat2Z.inj_succ (S fuel)), Z.pow_succ_r in Hn by lia.
      Z.div_mod_to_equations. lia. }
    destruct (IH (n / 10) (String (ascii_of_nat (Z.to_nat (48 + n mod 10))) acc) Hdiv)
      as (body & k & Hbody & Hne & Hlen & Hdec & Hread).
    assert (Hk : 0 <= k) by lia.
    exists (body ++ String (ascii_of_nat (Z.to_nat (48 + n mod 10))) ""), (k + 1).
    assert (Hmod : 0 <= n mod 10 < 10) by (apply Z.mod_pos_bound; lia).
    split; [rewrite Hbody, append_assoc; reflexivity |].
    split; [destruct body; [congruence | discriminate] |].
    split.
    { clear - Hlen. revert k Hlen. induction body as [| c body IHb]; intros k Hlen.
      - cbn in *. lia.
      - cbn [append String.length] in *.
        rewrite Nat2Z.inj_succ in *. rewrite (IHb (k - 1)) by lia. lia. }
    split.
    { apply is_decimal_app; [exact Hdec |].
      unfold is_decimal. cbn [list_ascii_of_string forallb].
      rewrite digit_of_ascii by lia. reflexivity. }
    intros rest a count b. rewrite append_assoc, Hread.
    cbn [append Str.digits]. rewrite digit_of_ascii by lia.
    f_equal; [| lia].
    rewrite Z.pow_add_r, Z.pow_1_r by lia.
    Z.div_mod_to_equations. lia.
Qed.

Lemma replace_from_decimal (body : string) :
  is_decimal body = true -> Str.replace_from "INV" "" body 0 = body.
Proof.
  induction body as [| c body IH]; [reflexivity |]. intros H.
  destruct (is_decimal_cons c body H) as [[d Hd] Hbody].
  destruct (digit_char c d Hd) as (_ & HI & _).
  cbn [Str.replace_from String.prefix].
  destruct (ascii_dec "I" c) as [Heq | _]; [congruence |].
  rewrite IH by exact Hbody. reflexivity.
Qed.

Lemma replace_INV (body : string) :
  is_decimal body = true -> Str.replace ("INV" ++ body) "INV" "" = body.
Proof.
  intros H. unfold Str.replace.
  change ("INV" ++ body) with (String "I" (String "N" (String "V" body))).
  cbn [Str.replace_from].
  assert (Hp : String.prefix "INV" (String "I" (String "N" (String "V" body))) = true)
    by (destruct body; reflexivity).
  rewrite Hp. cbn [String.length Nat.pred Str.replace_from append].
  apply replace_from_decimal, H.
Qed.

Lemma digit_char_int (c : ascii) (d : Z) :
  Str.digit_of c = Some d ->
  Str.int_char c = c /\ Str.is_int_space c = false.
Proof.
  destruct c as [[] [] [] [] [] [] [] []]; vm_compute; intros H;
    try discriminate H; split; reflexivity.
Qed.

Lemma int_chars_decimal (body : string) :
  is_decimal body = true -> Str.int_chars body = body.
Proof.
  induction body as [| c body IH]; [reflexivity |]. intros H.
  destruct (is_decimal_cons c body H) as [[d Hd] Hbody].
  destruct (digit_char_int c d Hd) as [Hc _].
  cbn [Str.int_chars]. rewrite Hc, IH by exact Hbody. reflexivity.
Qed.

Lemma int_rstrip_decimal (body : string) :
  is_decimal body = true -> Str.int_rstrip body = body.
Proof.
  induction body as [| c body IH]; [reflexivity |]. intros H.
  destruct (is_decimal_cons c body H) as [[d Hd] Hbody].
  destruct (digit_char_int c d Hd) as [_ Hsp].
  cbn [Str.int_rstrip]. rewrite IH by exact Hbody.
  destruct body; [rewrite Hsp |]; reflexivity.
Qed.

Lemma to_int_decimal (body : string) (n : Z) :
  body <> "" -> is_decimal body = true ->
  Str.digits body 0 0 false = Ok n ->
  Str.to_int body = Ok n.
Proof.
  intros Hne Hdec Hread. unfold Str.to_int.
  rewrite int_chars_decimal by exact Hdec.
  destruct body as [| c rest]; [congruence |].
  destruct (is_decimal_cons c rest Hdec) as [[d Hd] _].
  destruct (digit_char c d Hd) as (_ & _ & Hminus & Hplus).
  destruct (digit_char_int c d Hd) as [_ Hsp].
  cbn [Str.int_lstrip]. rewrite Hsp.
  rewrite int_rstrip_decimal by exact Hdec.
  clear - Hminus Hplus Hread.
  destruct c as [[] [] [] [] [] [] [] []]; try exact Hread;
    exfalso; auto.
Qed.

Lemma of_int_nonneg (n : Z) (text : string) :
  0 <= n -> Str.of_int n = Ok text ->
  is_decimal text = true /\ Str.to_int text = Ok n.
Proof.
  intros Hn. unfold Str.of_int. rewrite Z.abs_eq by exact Hn.
  assert (Hfuel : 0 <= n < 10 ^ Z.of_nat (S (Z.to_nat (Z.log2 n)))).
  { split; [exact Hn |]. rewrite Nat2Z.inj_succ, Z2Nat.id by apply Z.log2_nonneg.
    destruct (Z.eq_dec n 0) as [-> | Hne]; [reflexivity |].
    pose proof (Z.log2_spec n ltac:(lia)) as [_ Hlt].
    assert (2 ^ Z.succ (Z.log2 n) <= 10 ^ Z.succ (Z.log2 n)).
    { apply Z.pow_le_mono_l. lia. }
    lia. }
  destruct (of_pos_digits_spec _ n "" Hfuel)
    as (body & k & Hbody & Hne & Hlen & Hdec & Hread).
  rewrite append_empty_r in Hbody. rewrite Hbody, Hlen.
  destruct (Z.ltb_spec Str.int_max_str_digits k) as [Hbig | Hsmall];
    [discriminate |].
  destruct (Z.ltb_spec n 0) as [Hneg | _]; [lia |].
  intros H. apply Ok_inj in H. subst text. split; [exact Hdec |].
  apply to_int_decimal; try assumption.
  specialize (Hread "" 0 0 false). rewrite append_empty_r in Hread.
  rewrite Hread. cbn [Str.digits andb].
  destruct (Z.leb_spec (0 + k) Str.int_max_str_digits) as [_ | Hgt]; [| lia].
  f_equal; lia.
Qed.

(** What an accepted [create_invoice] has done, step by step. *)
Lemma create_invoice_steps
    (db db' : collection) (data : InvoiceCreate) (inv : Invoice) :
  create_invoice db data = Ok (inv, db') ->
  exists next_num digits,
    match find_one_sorted_desc db with
    | Some last =>
        last_num <- Str.to_int (Str.replace (invoice_number last) "INV" "") ;;
        Ok (last_num + 1)
    | None => Ok 1
    end = Ok next_num
    /\ Str.of_int next_num = Ok digits
    /\ invoice_number inv = "INV" ++ digits
    /\ calculate_invoice_totals (products data) = Ok (totals inv)
    /\ db' = (db ++ [inv])%list.
Proof.
  unfold create_invoice, insert_one. intros H.
  destruct (match find_one_sorted_desc db with Some _ => _ | None => _ end)
    as [next_num | e] eqn:Hnext; cbn [bind] in H; [| discriminate].
  destruct (Str.of_int next_num) as [digits | e] eqn:Hdigits; cbn [bind] in H;
    [| discriminate].
  destruct (calculate_invoice_totals (products data)) as [r | e] eqn:Hr;
    cbn [bind] in H; [| discriminate].
  destruct (number_to_words (PyInt (final_amount r))) as [w | e];
    cbn [bind] in H; [| discriminate].
  cbn [invoice_products] in H.
  destruct (forallb _ (products data)); cbn [bind] in H; [| discriminate].
  apply Ok_inj in H. injection H as <- <-.
  exists next_num, digits. cbn [invoice_number totals].
  repeat split; assumption.
Qed.

(** X9: when the greatest stored number, as a string, is the text of
    ["INV"] and a non-negative integer, stripping the prefix and parsing
    the rest gives that integer back, and an invoice that is accepted gets
    ["INV"] and the next integer and is appended to the store. *)
Theorem create_invoice_increments
    (db db' : collection) (data : InvoiceCreate) (last inv : Invoice) (n : Z)
    (text : string) :
  find_one_sorted_desc db = Some last ->
  0 <= n ->
  Str.of_int n = Ok text ->
  invoice_number last = "INV" ++ text ->
  create_invoice db data = Ok (inv, db') ->
  Str.to_int (Str.replace (invoice_number last) "INV" "") = Ok n
  /\ (exists next_text,
        Str.of_int (n + 1) = Ok next_text
        /\ invoice_number inv = "INV" ++ next_text)
  /\ db' = (db ++ [inv])%list.
Proof.
  intros Hfind Hn Htext Hlast Hcreate.
  destruct (of_int_nonneg n text Hn Htext) as [Hdec Hread].
  assert (Hparse : Str.to_int (Str.replace (invoice_number last) "INV" "") = Ok n)
    by (rewrite Hlast, replace_INV by exact Hdec; exact Hread).
  destruct (create_invoice_steps db db' data inv Hcreate)
    as (next_num & digits & Hnext & Hdigits & Hnum & _ & Hdb).
  rewrite Hfind, Hparse in Hnext. cbn [bind] in Hnext.
  apply Ok_inj in Hnext. subst next_num.
  split; [exact Hparse |]. split; [eauto | exact Hdb].
Qed.

Lemma create_invoice_increments_witness :
  exists inv db db' last,
    submit 3 [] scenario_request = Ok (["INV1"; "INV2"; "INV3"], db)
    /\ find_one_sorted_desc db = Some last
    /\ create_invoice db scenario_request = Ok (inv, db')
    /\ Str.to_int (Str.replace (invoice_number last) "INV" "") = Ok 3
    /\ (exists next_text,
          Str.of_int (3 + 1) = Ok next_text
          /\ invoice_number inv = "INV" ++ next_text)
    /\ db' = (db ++ [inv])%list.
Proof.
  assert (H : exists db last inv db',
            submit 3 [] scenario_request = Ok (["INV1"; "INV2"; "INV3"], db)
            /\ find_one_sorted_desc db = Some last
            /\ invoice_number last = "INV" ++ "3"
            /\ create_invoice db scenario_request = Ok (inv, db')).
  { do 4 eexists. split; [vm_compute; reflexivity |].
    split; [vm_compute; reflexivity |].
    split; vm_compute; reflexivity. }
  destruct H as (db & last & inv & db' & Hsubmit & Hfind & Hlast & Hcreate).
  exists inv, db, db', last.
  split; [exact Hsubmit |]. split; [exact Hfind |]. split; [exact Hcreate |].
  apply (create_invoice_increments db db' scenario_request last inv 3 "3"
           Hfind ltac:(lia) ltac:(vm_compute; reflexivity) Hlast Hcreate).
Defined.

(** *** Submissions in a row *)







End Numbering.

(** ** The stored invoices *)

Section Stored.




End Stored.


(** ** Lines that change nothing, lines that cannot be added *)

Section Lines.

Import Float.

Lemma loop_app (ps qs : list ProductItem) :
  forall acc,
    loop (ps ++ qs) acc = (acc' <- loop ps acc ;; loop qs acc').
Proof.
  induction ps as [| p ps IH]; intros acc; [reflexivity |].
  cbn [app loop]. destruct (loop_body acc p) as [acc' | e]; cbn [bind];
    [apply IH | reflexivity].
Qed.

Lemma loop_raises_at (ps : list ProductItem) (p : ProductItem) (e : exn) :
  In p ps -> of_int (quantity p) = Raise e ->
  forall acc, loop ps acc = Raise OverflowError.
Proof.
  intros Hin Hp. induction ps as [| a ps IH]; [contradiction |].
  intros [[t c] s]. cbn [loop]. unfold loop_body.
  destruct (of_int (quantity a)) as [q | e'] eqn:Ha; cbn [bind].
  - destruct Hin as [-> | Hin]; [congruence | apply IH, Hin].
  - apply of_int_raises in Ha. subst e'. reflexivity.
Qed.

(** X13: a quantity too large for a float, anywhere in the list, makes
    the function raise [OverflowError]. *)
Theorem quantity_too_large_raises
    (products : list ProductItem) (product : ProductItem) (e : exn) :
  In product products ->
  of_int (quantity product) = Raise e ->
  calculate_invoice_totals products = Raise OverflowError.
Proof.
  intros Hin Hq. unfold calculate_invoice_totals, unrounded_totals.
  rewrite (loop_raises_at products product e Hin Hq). reflexivity.
Qed.

Lemma quantity_too_large_raises_witness :
  calculate_invoice_totals overflowing_lines = Raise OverflowError.
Proof.
  apply (quantity_too_large_raises overflowing_lines
           (line (2 ^ 1024) (decimal 1 0) zero zero) OverflowError).
  - right. left. reflexivity.
  - vm_compute. reflexivity.
Defined.

(** *** The running totals are never -0.0 *)

Lemma Zdigits2_positive (m : Z) : 0 < m -> 1 <= Zdigits2 m.
Proof. destruct m; cbn; lia. Qed.

Lemma Zdigits2_zero (m : Z) : 0 <= m -> Zdigits2 m = 0 -> m = 0.
Proof. destruct m; cbn; lia. Qed.

Lemma shr_fexp_positive (m e : Z) (l : location) :
  0 < m -> -1074 <= e -> 0 < shr_m (fst (shr_fexp prec emax m e l)).
Proof.
  intros Hm He.
  pose proof (shr_fexp_nonneg m e l ltac:(lia)) as Hnn.
  pose proof (Zdigits2_positive m Hm) as Hd.
  assert (Hdig : 1 <= Zdigits2 (shr_m (fst (shr_fexp prec emax m e l)))).
  { unfold shr_fexp, shr.
    change (fexp prec emax (Zdigits2 m + e))
      with (Z.max (Zdigits2 m + e - 53) (-1074)).
    destruct (Z.max (Zdigits2 m + e - 53) (-1074) - e) as [| p | p] eqn:Hk;
      cbn [fst].
    - rewrite shr_record_of_loc_m. exact Hd.
    - rewrite iter_shr_1_digits by (rewrite shr_record_of_loc_m; lia).
      rewrite shr_record_of_loc_m. lia.
    - rewrite shr_record_of_loc_m. exact Hd. }
  destruct (Z.eq_dec (shr_m (fst (shr_fexp prec emax m e l))) 0) as [H0 | Hne];
    [rewrite H0 in Hdig; cbn in Hdig; lia | lia].
Qed.

Lemma binary_round_aux_nonzero (s : bool) (m e : Z) (l : location) :
  0 < m -> -1074 <= e ->
  forall sz, binary_round_aux prec emax s m e l <> S754_zero sz.
Proof.
  intros Hm He sz. unfold binary_round_aux.
  pose proof (shr_fexp_positive m e l Hm He) as H1.
  destruct (shr_fexp_spec m e l ltac:(lia)) as (_ & _ & He' & _).
  destruct (shr_fexp prec emax m e l) as [mrs' e']. cbn [fst snd] in *.
  assert (Hr : 0 < round_nearest_even (shr_m mrs') (loc_of_shr_record mrs')).
  { destruct (loc_of_shr_record mrs') as [| []]; cbn [round_nearest_even];
      try destruct (Z.even (shr_m mrs')); lia. }
  pose proof (shr_fexp_positive _ e' loc_Exact Hr ltac:(lia)) as H2.
  destruct (shr_fexp prec emax _ e' loc_Exact) as [mrs'' e'']. cbn [fst] in H2.
  destruct (shr_m mrs'') as [| q | q]; try lia.
  destruct (e'' <=? emax - prec); discriminate.
Qed.

Lemma binary_round_aux_above_emin (s : bool) (m e : Z) (l : location) :
  0 <= m -> above_emin (binary_round_aux prec emax s m e l).
Proof.
  intros Hm. unfold binary_round_aux.
  pose proof (shr_fexp_nonneg m e l Hm) as H1.
  destruct (shr_fexp prec emax m e l) as [mrs' e']. cbn [fst] in H1.
  pose proof (round_nearest_even_nonneg _ (loc_of_shr_record mrs') H1) as Hr.
  destruct (shr_fexp_spec _ e' loc_Exact Hr) as (_ & _ & He'' & _).
  destruct (shr_fexp prec emax _ e' loc_Exact) as [mrs'' e''].
  cbn [fst snd] in He''.
  destruct (shr_m mrs'') as [| q | q]; try exact I.
  destruct (e'' <=? emax - prec); [cbn; lia | exact I].
Qed.

Lemma shl_align_exponent (mx : positive) (ex ex' : Z) :
  -1074 <= ex -> -1074 <= ex' -> -1074 <= snd (shl_align mx ex ex').
Proof.
  intros H H'. unfold shl_align. destruct (ex' - ex); cbn [snd]; lia.
Qed.

Lemma binary_normalize_above_emin (m e : Z) (szero : bool) :
  above_emin (binary_normalize prec emax m e szero).
Proof.
  destruct m as [| p | p]; cbn [binary_normalize]; [exact I | |];
    unfold binary_round; destruct (shl_align _ _ _) as [mz ez];
    apply binary_round_aux_above_emin; lia.
Qed.

Lemma binary_normalize_not_negative_zero (m e : Z) :
  -1074 <= e -> binary_normalize prec emax m e false <> S754_zero true.
Proof.
  intros He. destruct m as [| p | p]; cbn [binary_normalize];
    [discriminate | |]; unfold binary_round;
    match goal with
    | |- context [shl_align ?mx ?ex ?ex'] =>
        pose proof (shl_align_exponent mx ex ex' He
                      ltac:(unfold fexp, emin, prec, emax; lia)) as Hez;
        destruct (shl_align mx ex ex') as [mz ez]
    end; cbn [snd] in Hez; apply binary_round_aux_nonzero; lia.
Qed.

Lemma mul_above_emin (x y : float) : above_emin (mul x y).
Proof.
  destruct x as [sx | sx | | sx mx ex], y as [sy | sy | | sy my ey];
    try exact I.
  apply binary_round_aux_above_emin. lia.
Qed.

Lemma div_above_emin (x y : float) : above_emin (div x y).
Proof.
  destruct x as [sx | sx | | sx mx ex], y as [sy | sy | | sy my ey];
    try exact I.
  unfold div, SFdiv.
  pose proof (div_core_nonneg mx my ex ey) as H.
  destruct (SFdiv_core_binary prec emax (Zpos mx) ex (Zpos my) ey) as [[mz ez] lz].
  apply binary_round_aux_above_emin. exact H.
Qed.

Lemma add_above_emin (x y : float) :
  above_emin x -> above_emin y -> above_emin (add x y).
Proof.
  intros Hx Hy.
  destruct x as [sx | sx | | sx mx ex], y as [sy | sy | | sy my ey];
    try destruct sx; try destruct sy; try exact I; try assumption;
    apply binary_normalize_above_emin.
Qed.

Lemma sub_above_emin (x y : float) :
  above_emin x -> above_emin y -> above_emin (sub x y).
Proof.
  intros Hx Hy.
  destruct x as [sx | sx | | sx mx ex], y as [sy | sy | | sy my ey];
    try destruct sx; try destruct sy; try exact I; try assumption;
    apply binary_normalize_above_emin.
Qed.

Lemma add_not_negative_zero (x y : float) :
  x <> S754_zero true -> above_emin x -> above_emin y ->
  add x y <> S754_zero true.
Proof.
  intros Hx Hax Hay.
  destruct x as [sx | sx | | sx mx ex], y as [sy | sy | | sy my ey];
    try destruct sx; try destruct sy; try discriminate; try congruence.
  all: unfold add, SFadd; apply binary_normalize_not_negative_zero;
    cbn [above_emin] in Hax, Hay; lia.
Qed.

Lemma loop_settled (products : list ProductItem) :
  forall acc acc', loop products acc = Ok acc' -> settled acc -> settled acc'.
Proof.
  induction products as [| product rest IH]; intros acc acc' H Hacc.
  - cbn in H. congruence.
  - cbn [loop] in H. destruct acc as [[t c] s]. unfold loop_body in H.
    destruct (of_int (quantity product)) as [q | e]; cbn [bind] in H;
      [| discriminate].
    eapply IH; [exact H |].
    destruct Hacc as ((Ht & Hat) & (Hc & Hac) & (Hs & Has)).
    repeat split;
      auto 6 using add_not_negative_zero, add_above_emin, sub_above_emin,
        mul_above_emin, div_above_emin.
Qed.

(** *** A line with quantity 0 *)

Lemma finite_double_in_range (x : float) : finite_double x -> in_range x.
Proof.
  intros [_ Hv]. destruct x as [s | s | | s m e]; try exact I.
  unfold valid_binary, bounded, canonical_mantissa in Hv.
  rewrite andb_true_iff in Hv. destruct Hv as [Hc He].
  apply Z.eqb_eq in Hc. apply Z.leb_le in He.
  unfold fexp, emin in Hc. cbn [in_range]. unfold prec, emax in *. lia.
Qed.

Lemma Zdigits2_div_pow2 (a k : Z) :
  0 <= a -> 0 <= k -> Zdigits2 (a / 2 ^ k) <= Z.max 0 (Zdigits2 a - k).
Proof.
  intros Ha Hk.
  assert (Hp : 0 < 2 ^ k) by (apply Z.pow_pos_nonneg; lia).
  destruct (Z.eq_dec (a / 2 ^ k) 0) as [-> | Hne]; [cbn; lia |].
  assert (Hq : 0 < a / 2 ^ k) by (pose proof (Z.div_pos a (2 ^ k) Ha Hp); lia).
  assert (Hapos : 0 < a).
  { destruct (Z.eq_dec a 0) as [-> | ]; [rewrite Z.div_0_l in Hq; lia | lia]. }
  assert (Hlog : k <= Z.log2 a).
  { apply Z.log2_le_pow2; [exact Hapos |].
    destruct (Z_lt_le_dec a (2 ^ k)) as [Hlt | Hge]; [| exact Hge].
    rewrite Z.div_small in Hq by lia. lia. }
  rewrite !Zdigits2_log2 by lia.
  rewrite <- Z.shiftr_div_pow2 by exact Hk.
  rewrite Z.log2_shiftr by exact Hapos. lia.
Qed.

(** Halving a finite double does not overflow. *)
Lemma div_two_finite (g : float) :
  finite_double g -> is_finite (div g float_2) = true.
Proof.
  intros Hg. pose proof (finite_double_in_range g Hg) as Hr.
  destruct Hg as [Hfin _].
  destruct g as [s | s | | s m e]; try discriminate; [reflexivity |].
  destruct Hr as [Hm He]. unfold prec, emax in Hm, He.
  unfold float_2, div, SFdiv.
  pose proof (div_core_nonneg m 4503599627370496 e (-51)) as Hq.
  pose proof (binary_round_aux_spec (xorb s false)) as Hspec.
  unfold SFdiv_core_binary in *.
  change (Zdigits2 (Zpos 4503599627370496)) with 53 in *.
  cbn [Zdigits2] in *.
  set (e' := Z.min (fexp prec emax (Zpos (digits2_pos m) + e - (53 + -51)))
                   (e - -51)) in *.
  assert (He' : e' <= 969 /\ e' <= e + 51)
    by (subst e'; unfold fexp, emin, prec, emax; lia).
  set (m' := match e - -51 - e' with
             | 0 => Zpos m
             | Zpos _ => Z.shiftl (Zpos m) (e - -51 - e')
             | Zneg _ => 0
             end) in *.
  assert (Hm' : 0 <= m' /\ Zdigits2 m' <= Zpos (digits2_pos m) + (e + 51 - e')).
  { subst m'. destruct (e - -51 - e') as [| p | p] eqn:Hs.
    - cbn [Zdigits2]. lia.
    - rewrite Z.shiftl_mul_pow2 by lia.
      assert (0 < 2 ^ Zpos p) by (apply Z.pow_pos_nonneg; lia).
      rewrite Zdigits2_mul_pow2 by lia. cbn [Zdigits2]. split; [nia | lia].
    - cbn. lia. }
  pose proof (Zdigits2_div_pow2 m' 52 ltac:(lia) ltac:(lia)) as Hdiv.
  change (2 ^ 52) with 4503599627370496 in Hdiv.
  unfold Z.div in Hdiv.
  destruct (Z.div_eucl m' 4503599627370496) as [q r]. cbn [fst] in Hq.
  specialize (Hspec q e' (new_location 4503599627370496 r) Hq).
  destruct (binary_round_aux prec emax (xorb s false) q e'
              (new_location 4503599627370496 r));
    try reflexivity; [| contradiction].
  exfalso. apply Hspec. lia.
Qed.

Lemma add_zero_r (t : float) (s : bool) :
  t <> S754_zero true -> add t (S754_zero s) = t.
Proof.
  destruct t as [st | st | | st mt et]; try reflexivity.
  destruct st, s; try reflexivity; congruence.
Qed.

Lemma mul_zero_l (s : bool) (x : float) :
  is_finite x = true -> exists s', mul (S754_zero s) x = S754_zero s'.
Proof.
  destruct x as [sx | sx | | sx mx ex]; try discriminate; intros _;
    eexists; reflexivity.
Qed.

Lemma loop_body_zero_quantity (acc : running) (product : ProductItem) :
  settled acc ->
  quantity product = 0 ->
  finite_double (unit_rate product) ->
  finite_double (discount_percentage product) ->
  finite_double (gst_rate product) ->
  loop_body acc product = Ok acc.
Proof.
  intros Hacc Hq [Hu _] [Hd _] Hg. destruct acc as [[t c] s].
  destruct Hacc as ((Ht & _) & (Hc & _) & (Hs & _)).
  unfold loop_body. rewrite Hq.
  change (of_int 0) with (Ok (S754_zero false)). cbn [bind].
  destruct (mul_zero_l false (unit_rate product) Hu) as [s1 ->].
  destruct (mul_zero_l s1 (discount_percentage product) Hd) as [s2 ->].
  pose proof (div_two_finite (gst_rate product) Hg) as Hrate.
  change (div (S754_zero s2) float_100) with (S754_zero (xorb s2 false)).
  assert (Htax : exists s3, sub (S754_zero s1) (S754_zero (xorb s2 false)) = S754_zero s3)
    by (destruct s1, s2; eexists; reflexivity).
  destruct Htax as [s3 ->].
  destruct (mul_zero_l s3 (div (gst_rate product) float_2) Hrate) as [s4 ->].
  change (div (S754_zero s4) float_100) with (S754_zero (xorb s4 false)).
  rewrite !add_zero_r by assumption. reflexivity.
Qed.

(** X14: a line with quantity 0 and finite rates changes nothing: the
    result, or the exception, is that of the list without the line. *)
Theorem zero_quantity_line_changes_nothing
    (before after : list ProductItem) (product : ProductItem) :
  quantity product = 0 ->
  finite_double (unit_rate product) ->
  finite_double (discount_percentage product) ->
  finite_double (gst_rate product) ->
  calculate_invoice_totals (before ++ product :: after)
  = calculate_invoice_totals (before ++ after).
Proof.
  intros Hq Hu Hd Hg.
  assert (Hloop : unrounded_totals (before ++ product :: after)
                  = unrounded_totals (before ++ after)).
  { unfold unrounded_totals. rewrite !loop_app.
    destruct (loop before (zero, zero, zero)) as [acc | e] eqn:Hbefore;
      cbn [bind]; [| reflexivity].
    cbn [loop].
    rewrite (loop_body_zero_quantity acc product); try assumption.
    - reflexivity.
    - apply (loop_settled before _ _ Hbefore).
      repeat split; (discriminate || exact I). }
  unfold calculate_invoice_totals. rewrite Hloop. reflexivity.
Qed.

Lemma zero_quantity_line_changes_nothing_witness :
  calculate_invoice_totals
    ([scenario_line] ++ line 0 (decimal 4999 2) (decimal 10 0) (decimal 28 0)
                     :: [small_line])
  = calculate_invoice_totals ([scenario_line] ++ [small_line]).
Proof.
  apply (zero_quantity_line_changes_nothing [scenario_line] [small_line]
           (line 0 (decimal 4999 2) (decimal 10 0) (decimal 28 0)));
    try reflexivity; split; vm_compute; reflexivity.
Defined.

End Lines.
